(** * pynetdicom: the Association worker (src/pynetdicom/association.py)

    A shallow embedding of the [Association] class: its constructor, the
    [Kill], [Release], [Abort] and [SCU] methods and the worker's [run]
    method with its main loop.  The class is glue code around three
    collaborators (the ACSE, DIMSE and DUL providers) and the callbacks of
    the application entity.  Every call to a collaborator is recorded in a
    trace together with the answer it gave; the answers come from an
    environment of oracles that see the whole history of the association so
    far, so a theorem quantified over the environment speaks about every
    behaviour of the collaborators.

    A call to a collaborator returns: an exception raised inside a
    collaborator, or a call that never comes back, is not modelled.  The
    methods are those of one thread; what another thread does to the same
    instance in between is not modelled either, and the methods are taken on
    an instance whose worker has installed its providers (the first two
    statements of [run]).  Loops take fuel: [OutOfFuel] stands for a loop
    that is still running. *)

From Stdlib Require Import List String Ascii ZArith Lia Bool Arith Permutation.
Import ListNotations.
Open Scope string_scope.
Open Scope Z_scope.
Open Scope list_scope.

(** ** Data *)

Abbreviation UID := (string) (only parsing).
Abbreviation TransferSyntax := (string) (only parsing).
Abbreviation PCID := (Z) (only parsing).

(** A class object of pynetdicom.SOPclass, identified by its name; the module
    is not part of the sources, only the classes' identity ([==]) is used. *)
Abbreviation SOPClass := (string) (only parsing).

(** A connected socket object (always true in a Python truth test). *)
Abbreviation Socket := (nat) (only parsing).

(** The dict describing an application entity: AE title, host and port.  With
    its three keys the dict is never empty, so it is true in a truth test. *)
Record AEInfo := {
  AET : string;
  Address : string;
  Port : Z
}.

Inductive Mode := Acceptor | Requestor.

(** The attributes of the local [ApplicationEntity] that the association
    reads.  [Associations] is the entity's list of associations (by worker
    number), [has_OnAssociateResponse] is the test
    ['OnAssociateResponse' in self.AE.__dict__]. *)
Record ApplicationEntity := {
  LocalAE : AEInfo;
  MaxAssociationIdleSeconds : Z;
  Associations : list nat;
  MaxNumberOfAssociations : Z;
  AcceptablePresentationContexts : list (UID * list TransferSyntax);
  PresentationContextDefinitionList : list (PCID * UID * list TransferSyntax);
  MaxPDULength : Z;
  has_OnAssociateResponse : bool
}.

(** The constants of pynetdicom.DULparameters that [run] names (the module is
    not part of the sources): result and diagnostic of an A-ASSOCIATE
    rejection. *)
Inductive AssociateResult :=
| A_ASSOCIATE_Result_RejectedPermanent
| A_ASSOCIATE_Result_RejectedTransient.

Inductive AssociateDiag :=
| A_ASSOCIATE_Diag_TemporaryCongestion
| A_ASSOCIATE_Diag_LocalLimitExceeded.

(** An A-ASSOCIATE primitive as [run] sees it: [Result] is the attribute
    compared with ['Accepted']. *)
Record A_ASSOCIATE := {
  Result : string;
  calling : string
}.

Record SCP_SCU_RoleSelectionParameters := {
  SOPClassUID : UID;
  SCURole : Z;
  SCPRole : Z
}.

(** A DIMSE message: [AffectedSOPClassUID] is [msg.AffectedSOPClassUID.value]. *)
Record Message := {
  AffectedSOPClassUID : UID;
  MessageID : Z
}.

Record Dataset := {
  ds_SOPClassUID : UID;
  ds_SOPInstanceUID : UID
}.

(** A service class instance [obj].  [obj_class] is [obj.__class__]; the
    other attributes are assigned by the association after construction and
    are absent until then.  [obj_DIMSE], [obj_ACSE], [obj_AE] tell whether the
    attribute has been bound to the association's provider or entity. *)
Record ServiceObject := {
  obj_class : SOPClass;
  obj_pcid : option PCID;
  obj_sopclass : option SOPClass;
  obj_transfersyntax : option TransferSyntax;
  obj_maxpdulength : option Z;
  obj_DIMSE : bool;
  obj_ACSE : bool;
  obj_AE : bool;
  obj_assoc : option A_ASSOCIATE
}.

(** [cls()] : a fresh instance with none of the attributes assigned. *)
Definition new_object (cls : SOPClass) : ServiceObject :=
  {| obj_class := cls; obj_pcid := None; obj_sopclass := None;
     obj_transfersyntax := None; obj_maxpdulength := None;
     obj_DIMSE := false; obj_ACSE := false; obj_AE := false;
     obj_assoc := None |}.

Definition set_context (o : ServiceObject)
  (x : PCID * SOPClass * TransferSyntax) : ServiceObject :=
  {| obj_class := obj_class o;
     obj_pcid := Some (fst (fst x));
     obj_sopclass := Some (snd (fst x));
     obj_transfersyntax := Some (snd x);
     obj_maxpdulength := obj_maxpdulength o;
     obj_DIMSE := obj_DIMSE o; obj_ACSE := obj_ACSE o; obj_AE := obj_AE o;
     obj_assoc := obj_assoc o |}.

(** The assignments of [SCU]: maxpdulength, DIMSE, AE. *)
Definition bind_scu (o : ServiceObject) (maxpdu : Z) : ServiceObject :=
  {| obj_class := obj_class o; obj_pcid := obj_pcid o;
     obj_sopclass := obj_sopclass o;
     obj_transfersyntax := obj_transfersyntax o;
     obj_maxpdulength := Some maxpdu;
     obj_DIMSE := true; obj_ACSE := obj_ACSE o; obj_AE := true;
     obj_assoc := obj_assoc o |}.

(** The assignments of the main loop: maxpdulength, DIMSE, ACSE, AE, assoc. *)
Definition bind_scp (o : ServiceObject) (maxpdu : Z)
  (assoc : option A_ASSOCIATE) : ServiceObject :=
  {| obj_class := obj_class o; obj_pcid := obj_pcid o;
     obj_sopclass := obj_sopclass o;
     obj_transfersyntax := obj_transfersyntax o;
     obj_maxpdulength := Some maxpdu;
     obj_DIMSE := true; obj_ACSE := true; obj_AE := true;
     obj_assoc := assoc |}.

(** The attributes of an [Association] instance.  [mode] is absent when
    [__init__] assigned none; [AssociationRefused] starts as [None]. *)
Record Association := {
  mode : option Mode;
  ClientSocket : option Socket;
  AE : ApplicationEntity;
  RemoteAE : option AEInfo;
  SOPClassesAsSCP : list (PCID * SOPClass * TransferSyntax);
  SOPClassesAsSCU : list (PCID * SOPClass * TransferSyntax);
  AssociationEstablished : bool;
  AssociationRefused : option bool;
  _Kill : bool;
  daemon : bool
}.

Inductive Exn :=
| ValueError (msg : string)
| AttributeError (attr : string)
| Exception (msg : string).

(** ** Calls to the collaborators

    One constructor per call the class makes, with the arguments and, where
    the caller uses it, the answer.  [EvSleep] is [time.sleep], in
    milliseconds.  [EvDIMSESend] is the DIMSE provider's [Send], the call by
    which a response status reaches the peer; it is part of the provider's
    interface, and no method of [Association] makes it. *)
Inductive Event :=
| EvDULServiceProvider (sock : option Socket) (timeout_seconds : Z)
| EvThreadInit
| EvThreadStart (is_daemon : bool)
| EvSleep (ms : Z)
| EvACSEServiceProvider
| EvDIMSEServiceProvider
| EvAccept (sock : option Socket)
    (contexts : list (UID * list TransferSyntax))
    (result : option AssociateResult) (diag : option AssociateDiag)
    (assoc : option A_ASSOCIATE)
| EvRequest (local : AEInfo) (remote : option AEInfo) (maxpdu : Z)
    (pcdl : list (PCID * UID * list TransferSyntax))
    (userspdu : list SCP_SCU_RoleSelectionParameters)
    (ans : bool) (response : option A_ASSOCIATE)
| EvOnAssociateResponse (ans : bool)
| EvAccepted (assoc : A_ASSOCIATE)
| EvRejected (response : A_ASSOCIATE)
| EvEstablished
| EvReleased
| EvAborted
| EvReceive (answer : option (Message * PCID))
| EvSCP (obj : ServiceObject) (msg : Message)
| EvSCU (obj : ServiceObject) (ds : Dataset) (id : Z) (status : Z)
| EvCheckRelease (answer : bool)
| EvCheckAbort (answer : bool)
| EvIsAlive (answer : bool)
| EvIdleExpired (answer : bool)
| EvStop (answer : bool)
| EvDULKill
| EvACSERelease (reason : Z)
| EvACSEAbort (reason : Z)
| EvDIMSESend (status : Z) (pcid : PCID).

Abbreviation Trace := (list Event) (only parsing).

(** The collaborators.  Each oracle is given the history of the association
    and the arguments of the call; [UID2SOPClass] (pynetdicom.SOPclass) is a
    lookup that does not depend on the history.  [ACSE_MaxPDULength] and
    [ACSE_AcceptedPresentationContexts] are attribute reads. *)
Record Env := {
  UID2SOPClass : UID -> SOPClass;
  ACSE_Accept : Trace -> option Socket -> list (UID * list TransferSyntax) ->
                option AssociateResult -> option AssociateDiag ->
                option A_ASSOCIATE;
  ACSE_Request : Trace -> AEInfo -> option AEInfo -> Z ->
                 list (PCID * UID * list TransferSyntax) ->
                 list SCP_SCU_RoleSelectionParameters ->
                 bool * option A_ASSOCIATE;
  ACSE_AcceptedPresentationContexts : Trace -> list (PCID * UID * TransferSyntax);
  ACSE_MaxPDULength : Trace -> Z;
  ACSE_CheckRelease : Trace -> bool;
  ACSE_CheckAbort : Trace -> bool;
  DIMSE_Receive : Trace -> option (Message * PCID);
  DUL_Stop : Trace -> bool;
  DUL_isAlive : Trace -> bool;
  DUL_idle_timer_expired : Trace -> bool;
  SOP_SCU : Trace -> ServiceObject -> Dataset -> Z -> Z
}.

(** ** The monad of the worker: state, trace, exceptions and fuel *)

Record World := {
  self : Association;
  trace : Trace
}.

Inductive Outcome (A : Type) :=
| Returned (a : A)
| Raised (e : Exn)
| OutOfFuel.
Arguments Returned {A} a.
Arguments Raised {A} e.
Arguments OutOfFuel {A}.

Definition M (A : Type) := World -> Outcome A * World.

Definition ret {A} (a : A) : M A := fun w => (Returned a, w).

Definition bind {A B} (m : M A) (f : A -> M B) : M B :=
  fun w =>
    match m w with
    | (Returned a, w') => f a w'
    | (Raised e, w') => (Raised e, w')
    | (OutOfFuel, w') => (OutOfFuel, w')
    end.

Notation "x <- m ;; k" := (bind m (fun x => k))
  (at level 61, m at next level, right associativity).
Notation "m ;;; k" := (bind m (fun _ => k))
  (at level 61, right associativity).

Definition raise {A} (e : Exn) : M A := fun w => (Raised e, w).
Definition out_of_fuel {A} : M A := fun w => (OutOfFuel, w).

Definition get_self : M Association := fun w => (Returned (self w), w).

Definition modify (f : Association -> Association) : M unit :=
  fun w => (Returned tt, {| self := f (self w); trace := trace w |}).

(** A call whose answer is not used. *)
Definition emit (e : Event) : M unit :=
  fun w => (Returned tt, {| self := self w; trace := trace w ++ [e] |}).

(** A call answered by an oracle. *)
Definition ask {R} (oracle : Trace -> R) (ev : R -> Event) : M R :=
  fun w => let r := oracle (trace w) in
           (Returned r, {| self := self w; trace := trace w ++ [ev r] |}).

(** An attribute read on a collaborator. *)
Definition read {R} (oracle : Trace -> R) : M R :=
  fun w => (Returned (oracle (trace w)), w).

(** Attribute assignments on [self]. *)
Definition set_Kill (b : bool) (s : Association) : Association :=
  {| mode := mode s; ClientSocket := ClientSocket s; AE := AE s;
     RemoteAE := RemoteAE s; SOPClassesAsSCP := SOPClassesAsSCP s;
     SOPClassesAsSCU := SOPClassesAsSCU s;
     AssociationEstablished := AssociationEstablished s;
     AssociationRefused := AssociationRefused s;
     _Kill := b; daemon := daemon s |}.

Definition set_SOPClassesAsSCP (l : list (PCID * SOPClass * TransferSyntax))
  (s : Association) : Association :=
  {| mode := mode s; ClientSocket := ClientSocket s; AE := AE s;
     RemoteAE := RemoteAE s; SOPClassesAsSCP := l;
     SOPClassesAsSCU := SOPClassesAsSCU s;
     AssociationEstablished := AssociationEstablished s;
     AssociationRefused := AssociationRefused s;
     _Kill := _Kill s; daemon := daemon s |}.

Definition set_SOPClassesAsSCU (l : list (PCID * SOPClass * TransferSyntax))
  (s : Association) : Association :=
  {| mode := mode s; ClientSocket := ClientSocket s; AE := AE s;
     RemoteAE := RemoteAE s; SOPClassesAsSCP := SOPClassesAsSCP s;
     SOPClassesAsSCU := l;
     AssociationEstablished := AssociationEstablished s;
     AssociationRefused := AssociationRefused s;
     _Kill := _Kill s; daemon := daemon s |}.

Definition set_AssociationEstablished (b : bool) (s : Association) : Association :=
  {| mode := mode s; ClientSocket := ClientSocket s; AE := AE s;
     RemoteAE := RemoteAE s; SOPClassesAsSCP := SOPClassesAsSCP s;
     SOPClassesAsSCU := SOPClassesAsSCU s;
     AssociationEstablished := b;
     AssociationRefused := AssociationRefused s;
     _Kill := _Kill s; daemon := daemon s |}.

Definition set_AssociationRefused (r : option bool) (s : Association) : Association :=
  {| mode := mode s; ClientSocket := ClientSocket s; AE := AE s;
     RemoteAE := RemoteAE s; SOPClassesAsSCP := SOPClassesAsSCP s;
     SOPClassesAsSCU := SOPClassesAsSCU s;
     AssociationEstablished := AssociationEstablished s;
     AssociationRefused := r;
     _Kill := _Kill s; daemon := daemon s |}.

(** ** Association.__init__ *)

(** Python's truth test on an optional socket or AE dict: [None] is false,
    an object of either kind is true. *)
Definition truthy {A} (o : option A) : bool :=
  match o with Some _ => true | None => false end.

Definition is_None {A} (o : option A) : bool :=
  match o with Some _ => false | None => true end.

(** The constructor.  The result is the new instance, or the exception, and
    the calls made on the way: the DUL provider is built, the thread
    initialised, [daemon] set and the worker started. *)
Definition init (LocalAE : ApplicationEntity) (ClientSocket : option Socket)
  (RemoteAE : option AEInfo) : Outcome Association * Trace :=
  if is_None ClientSocket && is_None RemoteAE then
    (Raised (ValueError
       "Association can't be initialised with both ClientSocket and RemoteAE parameters"),
     [])
  else if truthy ClientSocket && truthy RemoteAE then
    (Raised (ValueError
       "Association must be initialised with either ClientSocket or RemoteAE parameter"),
     [])
  else
    let mode0 : option Mode := None in
    let mode1 := if truthy ClientSocket then Some Acceptor else mode0 in
    let mode2 := if truthy RemoteAE then Some Requestor else mode1 in
    (Returned
       {| mode := mode2;
          ClientSocket := ClientSocket;
          AE := LocalAE;
          RemoteAE := RemoteAE;
          SOPClassesAsSCP := [];
          SOPClassesAsSCU := [];
          AssociationEstablished := false;
          AssociationRefused := None;
          _Kill := false;
          daemon := true |},
     [EvDULServiceProvider ClientSocket (MaxAssociationIdleSeconds LocalAE);
      EvThreadInit;
      EvThreadStart true]).

Section Worker.

Variable env : Env.

(** ** Kill, Release, Abort *)

(** [while not self.DUL.Stop(): time.sleep(0.001)] *)
Fixpoint Kill_wait (fuel : nat) : M unit :=
  match fuel with
  | O => out_of_fuel
  | S fuel' =>
      stopped <- ask (DUL_Stop env) EvStop ;;
      if stopped then ret tt
      else emit (EvSleep 1) ;;; Kill_wait fuel'
  end.

Definition Kill (fuel : nat) : M unit :=
  modify (set_Kill true) ;;; Kill_wait fuel.

Definition Release (fuel : nat) (reason : Z) : M unit :=
  emit (EvACSERelease reason) ;;; Kill fuel.

Definition Abort (fuel : nat) (reason : Z) : M unit :=
  emit (EvACSEAbort reason) ;;; Kill fuel.

(** ** SCU *)

(** [[x for x in self.SOPClassesAsSCU if x[1] == obj.__class__]] *)
Definition matching_classes (cls : SOPClass)
  (l : list (PCID * SOPClass * TransferSyntax)) :=
  filter (fun x => String.eqb (snd (fst x)) cls) l.

Definition SCU (ds : Dataset) (id : Z) : M Z :=
  let obj := new_object (UID2SOPClass env (ds_SOPClassUID ds)) in
  s <- get_self ;;
  match matching_classes (obj_class obj) (SOPClassesAsSCU s) with
  | [] =>
      raise (Exception ("SOP Class " ++ ds_SOPClassUID ds ++ " not supported as SCU")%string)
  | x :: _ =>
      let obj := set_context obj x in
      maxpdu <- read (ACSE_MaxPDULength env) ;;
      let obj := bind_scu obj maxpdu in
      ask (fun h => SOP_SCU env h obj ds id) (EvSCU obj ds id)
  end.

(** ** run *)

(** The loop that builds [SOPClassesAsSCP] / [SOPClassesAsSCU] from
    [self.ACSE.AcceptedPresentationContexts], one append per context. *)
Definition build_SOPClasses (contexts : list (PCID * UID * TransferSyntax))
  : list (PCID * SOPClass * TransferSyntax) :=
  fold_left
    (fun acc context =>
       acc ++ [(fst (fst context), UID2SOPClass env (snd (fst context)), snd context)])
    contexts [].

(** The loop that builds the role extended negotiation [ext], one item per
    element [ii] of [self.AE.AcceptablePresentationContexts]. *)
Definition build_ext (contexts : list (UID * list TransferSyntax))
  : list SCP_SCU_RoleSelectionParameters :=
  fold_left
    (fun ext ii =>
       ext ++ [{| SOPClassUID := fst ii; SCURole := 0; SCPRole := 1 |}])
    contexts [].

(** The loop over [self.SOPClassesAsSCP] in the main loop: every entry whose
    context id equals [pcid] assigns the three attributes and sets
    [matching_sop]. *)
Definition match_context (pcid : PCID)
  (table : list (PCID * SOPClass * TransferSyntax))
  (obj : ServiceObject) : ServiceObject * bool :=
  fold_left
    (fun (st : ServiceObject * bool) sop_class =>
       if fst (fst sop_class) =? pcid
       then (set_context (fst st) sop_class, true)
       else st)
    table (obj, false).

(** A received message: lines 300 to 327. *)
Definition dispatch (assoc : option A_ASSOCIATE) (msg : Message) (pcid : PCID)
  : M unit :=
  let uid := AffectedSOPClassUID msg in
  let obj := new_object (UID2SOPClass env uid) in
  s <- get_self ;;
  let '(obj, matching_sop) := match_context pcid (SOPClassesAsSCP s) obj in
  (* if not matching_sop: pass *)
  (if negb matching_sop then ret tt else ret tt) ;;;
  maxpdu <- read (ACSE_MaxPDULength env) ;;
  let obj := bind_scp obj maxpdu assoc in
  emit (EvSCP obj msg).

Inductive LoopCtl := Continue | Return.

(** Lines 297 to 327: the non-blocking poll of the DIMSE provider and the
    dispatch of a message it returned. *)
Definition receive_and_dispatch (assoc : option A_ASSOCIATE) : M unit :=
  received <- ask (DIMSE_Receive env) EvReceive ;;
  match received with
  | Some (msg, pcid) => dispatch assoc msg pcid
  | None => ret tt
  end.

(** Lines 329 to 348: release request, abort, DUL thread, idle timer. *)
Definition polls (kfuel : nat) : M LoopCtl :=
  released <- ask (ACSE_CheckRelease env) EvCheckRelease ;;
  (if released then emit EvReleased ;;; Kill kfuel else ret tt) ;;;
  aborted <- ask (ACSE_CheckAbort env) EvCheckAbort ;;
  if aborted then
    emit EvAborted ;;; Kill kfuel ;;; ret Return
  else
    alive <- ask (DUL_isAlive env) EvIsAlive ;;
    (if negb alive then Kill kfuel else ret tt) ;;;
    expired <- ask (DUL_idle_timer_expired env) EvIdleExpired ;;
    (if expired then Kill kfuel else ret tt) ;;;
    ret Continue.

(** The body of the main loop when [self.mode == 'Acceptor']. *)
Definition acceptor_iteration (kfuel : nat) (assoc : option A_ASSOCIATE)
  : M LoopCtl :=
  receive_and_dispatch assoc ;;; polls kfuel.

(** [while not self._Kill: ...].  [fuel] bounds the iterations of this loop,
    [kfuel] those of each [Kill]. *)
Fixpoint main_loop (kfuel fuel : nat) (assoc : option A_ASSOCIATE) : M unit :=
  s <- get_self ;;
  if _Kill s then ret tt
  else
    match fuel with
    | O => out_of_fuel
    | S fuel' =>
        emit (EvSleep 1) ;;;
        match mode s with
        | Some Acceptor =>
            ctl <- acceptor_iteration kfuel assoc ;;
            match ctl with
            | Return => ret tt
            | Continue => main_loop kfuel fuel' assoc
            end
        | Some Requestor => main_loop kfuel fuel' assoc
        | None => raise (AttributeError "mode")
        end
    end.

(** Lines 286 to 348: the association is established, then the main loop. *)
Definition established (kfuel fuel : nat) (assoc : option A_ASSOCIATE) : M unit :=
  modify (set_AssociationEstablished true) ;;;
  emit EvEstablished ;;;
  main_loop kfuel fuel assoc.

(** The limit test and the [result], [diag] it leaves. *)
Definition limit_check (ae : ApplicationEntity)
  : option AssociateResult * option AssociateDiag :=
  if Z.of_nat (List.length (Associations ae)) >? MaxNumberOfAssociations ae
  then (Some A_ASSOCIATE_Result_RejectedTransient,
        Some A_ASSOCIATE_Diag_LocalLimitExceeded)
  else (None, None).

Definition run_acceptor (kfuel fuel : nat) : M unit :=
  emit (EvSleep 100) ;;;
  s <- get_self ;;
  let '(result, diag) := limit_check (AE s) in
  assoc <- ask (fun h => ACSE_Accept env h (ClientSocket s)
                           (AcceptablePresentationContexts (AE s)) result diag)
               (EvAccept (ClientSocket s)
                  (AcceptablePresentationContexts (AE s)) result diag) ;;
  match assoc with
  | None => Kill kfuel
  | Some a =>
      emit (EvAccepted a) ;;;
      contexts <- read (ACSE_AcceptedPresentationContexts env) ;;
      modify (set_SOPClassesAsSCP (build_SOPClasses contexts)) ;;;
      established kfuel fuel assoc
  end.

(** Lines 261 to 287: the reply from the remote AE. *)
Definition reply_from_remote (kfuel fuel : nat) (s : Association)
  (ans : bool) (response : option A_ASSOCIATE) : M unit :=
  if ans then
    (if has_OnAssociateResponse (AE s)
     then emit (EvOnAssociateResponse ans) else ret tt) ;;;
    match response with
    | None => raise (AttributeError "Result")
    | Some r =>
        (if String.eqb (Result r) "Accepted"
         then emit (EvAccepted r) else ret tt) ;;;
        contexts <- read (ACSE_AcceptedPresentationContexts env) ;;
        modify (set_SOPClassesAsSCU (build_SOPClasses contexts)) ;;;
        established kfuel fuel None
    end
  else
    match response with
    | Some r => emit (EvRejected r)
    | None => ret tt
    end ;;;
    modify (set_AssociationRefused (Some true)) ;;;
    emit EvDULKill.

Definition run_requestor (kfuel fuel : nat) : M unit :=
  s <- get_self ;;
  let ext := build_ext (AcceptablePresentationContexts (AE s)) in
  answer <- ask (fun h => ACSE_Request env h (LocalAE (AE s)) (RemoteAE s)
                            (MaxPDULength (AE s))
                            (PresentationContextDefinitionList (AE s)) ext)
                (fun r => EvRequest (LocalAE (AE s)) (RemoteAE s)
                            (MaxPDULength (AE s))
                            (PresentationContextDefinitionList (AE s)) ext
                            (fst r) (snd r)) ;;
  let '(ans, response) := answer in
  reply_from_remote kfuel fuel s ans response.

(** The worker.  [assoc] is bound on the acceptor path only; the main loop
    reads it on that path only. *)
Definition run (kfuel fuel : nat) : M unit :=
  emit EvACSEServiceProvider ;;;
  emit EvDIMSEServiceProvider ;;;
  s <- get_self ;;
  match mode s with
  | Some Acceptor => run_acceptor kfuel fuel
  | Some Requestor => run_requestor kfuel fuel
  | None => raise (AttributeError "mode")
  end.

End Worker.

(** * Vocabulary of the properties *)

(** ** Traces of the constructor and of [Kill] *)

(** The trace holds a [Thread.start()]. *)
Definition thread_started (t : Trace) : bool :=
  existsb (fun e => match e with EvThreadStart _ => true | _ => false end) t.

(** The calls of one [Kill] that succeeds at its [j]+1-th poll. *)
Fixpoint kill_chunk (j : nat) : Trace :=
  match j with
  | O => [EvStop true]
  | S j' => EvStop false :: EvSleep 1 :: kill_chunk j'
  end.

(** The calls of a [Kill] still waiting after [j] polls. *)
Fixpoint wait_chunk (j : nat) : Trace :=
  match j with
  | O => []
  | S j' => EvStop false :: EvSleep 1 :: wait_chunk j'
  end.

(** The world after the calls [t], the association untouched. *)
Definition extend (w : World) (t : Trace) : World :=
  {| self := self w; trace := trace w ++ t |}.

(** The world after a [Kill] that succeeded at its [j]+1-th poll. *)
Definition killed (w : World) (j : nat) : World :=
  {| self := set_Kill true (self w); trace := trace w ++ kill_chunk j |}.

(** [DUL.Stop()] answers [True] at the latest at the [k]+1-th consecutive
    poll from history [h]. *)
Fixpoint stops_within (env : Env) (h : Trace) (k : nat) : bool :=
  DUL_Stop env h ||
  match k with
  | O => false
  | S k' => stops_within env (h ++ [EvStop false; EvSleep 1]) k'
  end.

(** The DUL provider always stops in the end, whenever it is asked to. *)
Definition Stop_eventually (env : Env) : Prop :=
  forall h, exists k, stops_within env h k = true.

(** From history [h] on, the first [j] consecutive polls of [DUL.Stop()]
    answer [False]. *)
Definition Stop_fails (env : Env) (h : Trace) (j : nat) : Prop :=
  forall i, (i < j)%nat -> DUL_Stop env (h ++ wait_chunk i) = false.

(** ... and the next one answers [True]: a [Kill] started at history [h]
    returns at its [j]+1-th poll. *)
Definition Stop_at (env : Env) (h : Trace) (j : nat) : Prop :=
  Stop_fails env h j /\ DUL_Stop env (h ++ wait_chunk j) = true.

(** ** Traces of one iteration of the main loop *)

(** The calls of the four polls of one acceptor iteration, given the answers
    [b1] (release request), [b2] (abort), [b3] (DUL thread alive), [b4]
    (idle timer expired) and the number of failed [Stop] polls of each
    [Kill]. After an abort the last two checks are not made. *)
Definition polls_trace (b1 : bool) (j1 : nat) (b2 : bool) (j2 : nat)
  (b3 : bool) (j3 : nat) (b4 : bool) (j4 : nat) : Trace :=
  EvCheckRelease b1 :: (if b1 then EvReleased :: kill_chunk j1 else []) ++
  EvCheckAbort b2 ::
  (if b2 then EvAborted :: kill_chunk j2
   else EvIsAlive b3 :: (if b3 then [] else kill_chunk j3) ++
        EvIdleExpired b4 :: (if b4 then kill_chunk j4 else [])).

(** Some poll made the iteration call [Kill]. *)
Definition polls_kill (b1 b2 b3 b4 : bool) : bool :=
  b1 || b2 || negb b3 || b4.

(** The world after the four polls. *)
Definition polls_world (w : World) (b1 : bool) (j1 : nat) (b2 : bool) (j2 : nat)
  (b3 : bool) (j3 : nat) (b4 : bool) (j4 : nat) : World :=
  {| self := if polls_kill b1 b2 b3 b4 then set_Kill true (self w) else self w;
     trace := trace w ++ polls_trace b1 j1 b2 j2 b3 j3 b4 j4 |}.

(** The calls of the poll for a release request with answer [b1]: the
    callback and a [Kill] that succeeded at its [j1]+1-th poll follow an
    observed request. *)
Definition release_part (b1 : bool) (j1 : nat) : Trace :=
  EvCheckRelease b1 :: (if b1 then EvReleased :: kill_chunk j1 else []).

(** The calls of the check of the DUL thread with answer [b3]. *)
Definition alive_part (b3 : bool) (j3 : nat) : Trace :=
  EvIsAlive b3 :: (if b3 then [] else kill_chunk j3).

(** The world of an iteration that, after the calls [t], is held in a [Kill]
    whose first [j] polls of [DUL.Stop()] all failed. *)
Definition waiting (w : World) (t : Trace) (j : nat) : World :=
  {| self := set_Kill true (self w); trace := trace w ++ t ++ wait_chunk j |}.

(** What the four polls of an acceptor iteration started in [w] come to.
    Every answer is the one the provider gives at the history reached: the
    release request is polled first; the abort is polled once the [Kill] of
    an observed release has returned; the DUL thread and then the idle timer
    are checked when no abort was observed, each once the [Kill] before it
    has returned.  An observed release is followed by
    [on_association_released] and [Kill], an observed abort by
    [on_association_aborted] and [Kill], a dead DUL thread and an expired idle
    timer by [Kill].  A [Kill] returns at the first poll of [DUL.Stop()] that
    answers [True].  The iteration returns (after an abort) or goes on, or
    it is held in one of its [Kill]s, whose polls have all failed so far. *)
Inductive polls_outcome (env : Env) (w : World)
  : Outcome LoopCtl * World -> Prop :=
| polls_wait_release (j : nat) :
    ACSE_CheckRelease env (trace w) = true ->
    Stop_fails env (trace w ++ [EvCheckRelease true; EvReleased]) j ->
    polls_outcome env w
      (OutOfFuel, waiting w [EvCheckRelease true; EvReleased] j)
| polls_abort (b1 : bool) (j1 j2 : nat) :
    b1 = ACSE_CheckRelease env (trace w) ->
    (b1 = true -> Stop_at env (trace w ++ [EvCheckRelease true; EvReleased]) j1) ->
    ACSE_CheckAbort env (trace w ++ release_part b1 j1) = true ->
    Stop_at env (trace w ++ release_part b1 j1 ++ [EvCheckAbort true; EvAborted]) j2 ->
    polls_outcome env w
      (Returned Return, polls_world w b1 j1 true j2 true O false O)
| polls_wait_abort (b1 : bool) (j1 j : nat) :
    b1 = ACSE_CheckRelease env (trace w) ->
    (b1 = true -> Stop_at env (trace w ++ [EvCheckRelease true; EvReleased]) j1) ->
    ACSE_CheckAbort env (trace w ++ release_part b1 j1) = true ->
    Stop_fails env (trace w ++ release_part b1 j1 ++ [EvCheckAbort true; EvAborted]) j ->
    polls_outcome env w
      (OutOfFuel,
       waiting w (release_part b1 j1 ++ [EvCheckAbort true; EvAborted]) j)
| polls_wait_alive (b1 : bool) (j1 j : nat) :
    b1 = ACSE_CheckRelease env (trace w) ->
    (b1 = true -> Stop_at env (trace w ++ [EvCheckRelease true; EvReleased]) j1) ->
    ACSE_CheckAbort env (trace w ++ release_part b1 j1) = false ->
    DUL_isAlive env (trace w ++ release_part b1 j1 ++ [EvCheckAbort false]) = false ->
    Stop_fails env
      (trace w ++ release_part b1 j1 ++ [EvCheckAbort false; EvIsAlive false]) j ->
    polls_outcome env w
      (OutOfFuel,
       waiting w (release_part b1 j1 ++ [EvCheckAbort false; EvIsAlive false]) j)
| polls_wait_idle (b1 : bool) (j1 : nat) (b3 : bool) (j3 j : nat) :
    b1 = ACSE_CheckRelease env (trace w) ->
    (b1 = true -> Stop_at env (trace w ++ [EvCheckRelease true; EvReleased]) j1) ->
    ACSE_CheckAbort env (trace w ++ release_part b1 j1) = false ->
    b3 = DUL_isAlive env (trace w ++ release_part b1 j1 ++ [EvCheckAbort false]) ->
    (b3 = false ->
     Stop_at env
       (trace w ++ release_part b1 j1 ++ [EvCheckAbort false; EvIsAlive false]) j3) ->
    DUL_idle_timer_expired env
      (trace w ++ release_part b1 j1 ++ EvCheckAbort false :: alive_part b3 j3) = true ->
    Stop_fails env
      (trace w ++ release_part b1 j1 ++ EvCheckAbort false :: alive_part b3 j3 ++
       [EvIdleExpired true]) j ->
    polls_outcome env w
      (OutOfFuel,
       waiting w (release_part b1 j1 ++ EvCheckAbort false :: alive_part b3 j3 ++
                  [EvIdleExpired true]) j)
| polls_continue (b1 : bool) (j1 : nat) (b3 : bool) (j3 : nat) (b4 : bool) (j4 : nat) :
    b1 = ACSE_CheckRelease env (trace w) ->
    (b1 = true -> Stop_at env (trace w ++ [EvCheckRelease true; EvReleased]) j1) ->
    ACSE_CheckAbort env (trace w ++ release_part b1 j1) = false ->
    b3 = DUL_isAlive env (trace w ++ release_part b1 j1 ++ [EvCheckAbort false]) ->
    (b3 = false ->
     Stop_at env
       (trace w ++ release_part b1 j1 ++ [EvCheckAbort false; EvIsAlive false]) j3) ->
    b4 = DUL_idle_timer_expired env
           (trace w ++ release_part b1 j1 ++ EvCheckAbort false :: alive_part b3 j3) ->
    (b4 = true ->
     Stop_at env
       (trace w ++ release_part b1 j1 ++ EvCheckAbort false :: alive_part b3 j3 ++
        [EvIdleExpired true]) j4) ->
    polls_outcome env w
      (Returned Continue, polls_world w b1 j1 false O b3 j3 b4 j4).

(** The entry of the table that the loop over [SOPClassesAsSCP] leaves on the
    object: the last one whose context id is [pcid]. *)
Definition last_entry (pcid : PCID)
  (table : list (PCID * SOPClass * TransferSyntax)) :=
  find (fun x => fst (fst x) =? pcid) (rev table).

(** The object whose [SCP] the loop calls for [msg] received on [pcid]. *)
Definition handler_object (env : Env)
  (table : list (PCID * SOPClass * TransferSyntax))
  (assoc : option A_ASSOCIATE) (msg : Message) (pcid : PCID) (maxpdu : Z)
  : ServiceObject :=
  bind_scp
    (fst (match_context pcid table
            (new_object (UID2SOPClass env (AffectedSOPClassUID msg)))))
    maxpdu assoc.

(** The rest of an iteration once the message, if any, has been handled. *)
Definition rest_of_iteration (env : Env) (kfuel n : nat)
  (assoc : option A_ASSOCIATE) : M unit :=
  ctl <- polls env kfuel ;;
  match ctl with
  | Return => ret tt
  | Continue => main_loop env kfuel n assoc
  end.

(** The calls of the first part of an iteration: the poll of the DIMSE
    provider and, for a message, the call of its handler. *)
Definition received_trace (env : Env) (assoc : option A_ASSOCIATE)
  (table : list (PCID * SOPClass * TransferSyntax)) (h : Trace) : Trace :=
  match DIMSE_Receive env h with
  | Some (msg, pcid) =>
      [EvReceive (Some (msg, pcid));
       EvSCP (handler_object env table assoc msg pcid
                (ACSE_MaxPDULength env (h ++ [EvReceive (Some (msg, pcid))]))) msg]
  | None => [EvReceive None]
  end.

(** The observations that end the loop: a release request, an abort, a dead
    DUL thread, an expired idle timer. *)
Definition is_trigger (e : Event) : bool :=
  match e with
  | EvCheckRelease true | EvCheckAbort true
  | EvIsAlive false | EvIdleExpired true => true
  | _ => false
  end.

(** Every such observation in [t] is followed, later in [t], by a
    [DUL.Stop()] that succeeded. *)
Fixpoint stop_follows_trigger (t : Trace) : Prop :=
  match t with
  | [] => True
  | e :: rest =>
      (is_trigger e = true -> In (EvStop true) rest) /\ stop_follows_trigger rest
  end.

(** ** The calls that open an association *)

(** The history at which the requestor calls [ACSE.Request]. *)
Definition request_history (w : World) : Trace :=
  trace w ++ [EvACSEServiceProvider; EvDIMSEServiceProvider].

(** The answer of [ACSE.Request] to the call [run] makes from [w]. *)
Definition request_answer (env : Env) (w : World) : bool * option A_ASSOCIATE :=
  ACSE_Request env (request_history w)
    (LocalAE (AE (self w))) (RemoteAE (self w)) (MaxPDULength (AE (self w)))
    (PresentationContextDefinitionList (AE (self w)))
    (build_ext (AcceptablePresentationContexts (AE (self w)))).

(** The call itself, with its answer. *)
Definition request_event (env : Env) (w : World) : Event :=
  EvRequest (LocalAE (AE (self w))) (RemoteAE (self w)) (MaxPDULength (AE (self w)))
    (PresentationContextDefinitionList (AE (self w)))
    (build_ext (AcceptablePresentationContexts (AE (self w))))
    (fst (request_answer env w)) (snd (request_answer env w)).

(** ** A logic of calls *)

(** The calls that need not be followed by a callback of the entity. *)
Definition plain (e : Event) : bool :=
  match e with
  | EvAccept _ _ _ _ (Some _) | EvCheckRelease true | EvCheckAbort true => false
  | _ => true
  end.

(** [steps I P R m] : started in a state that satisfies [I], the computation
    [m] only adds calls to the trace, the calls it adds satisfy [P], the
    state it leaves satisfies [I] again, and an exception it raises satisfies
    [R]. *)
Definition steps (I : Association -> Prop) (P : Trace -> Prop)
  (R : Exn -> Prop) {A} (m : M A) : Prop :=
  forall w, I (self w) ->
    exists t, trace (snd (m w)) = trace w ++ t /\ P t
              /\ I (self (snd (m w)))
              /\ forall e, fst (m w) = Raised e -> R e.

(** The polls after the check for a release request: lines 335 to 348,
    and their last part, lines 342 to 348. *)
Definition alive_and_idle (env : Env) (kfuel : nat) : M LoopCtl :=
  alive <- ask (DUL_isAlive env) EvIsAlive ;;
  (if negb alive then Kill env kfuel else ret tt) ;;;
  expired <- ask (DUL_idle_timer_expired env) EvIdleExpired ;;
  (if expired then Kill env kfuel else ret tt) ;;;
  ret Continue.

Definition abort_check (env : Env) (kfuel : nat) : M LoopCtl :=
  aborted <- ask (ACSE_CheckAbort env) EvCheckAbort ;;
  if aborted then emit EvAborted ;;; Kill env kfuel ;;; ret Return
  else alive_and_idle env kfuel.

(** The history at which the acceptor calls [ACSE.Accept]. *)
Definition accept_history (w : World) : Trace :=
  trace w ++ [EvACSEServiceProvider; EvDIMSEServiceProvider; EvSleep 100].

(** The answer of [ACSE.Accept] to the call [run] makes from [w], and the
    call itself. *)
Definition accept_answer (env : Env) (w : World) : option A_ASSOCIATE :=
  ACSE_Accept env (accept_history w) (ClientSocket (self w))
    (AcceptablePresentationContexts (AE (self w)))
    (fst (limit_check (AE (self w)))) (snd (limit_check (AE (self w)))).

Definition accept_event (env : Env) (w : World) : Event :=
  EvAccept (ClientSocket (self w))
    (AcceptablePresentationContexts (AE (self w)))
    (fst (limit_check (AE (self w)))) (snd (limit_check (AE (self w))))
    (accept_answer env w).

(** The state in which the acceptor enters the main loop. *)
Definition accepted_world (env : Env) (w : World) (a : A_ASSOCIATE) : World :=
  {| self :=
       set_AssociationEstablished true
         (set_SOPClassesAsSCP
            (build_SOPClasses env
               (ACSE_AcceptedPresentationContexts env
                  (accept_history w ++ [accept_event env w; EvAccepted a])))
            (self w));
     trace := accept_history w ++ [accept_event env w; EvAccepted a; EvEstablished] |}.

(** The polls of [DUL.Stop()] and the sleeps between them. *)
Definition is_stop_poll (e : Event) : bool :=
  match e with
  | EvStop _ | EvSleep _ => true
  | _ => false
  end.

(** No constraint on the state, the calls or the exception. *)
Definition any_state (s : Association) : Prop := True.
Definition any_trace (t : Trace) : Prop := True.
Definition any_exn (e : Exn) : Prop := True.

(** [m] only adds calls to the trace. *)
Definition grows {A} (m : M A) : Prop := steps any_state any_trace any_exn m.

(** ** Lifecycle callbacks *)

(** What must come right after a call: [on_association_accepted] and
    [on_association_established] after an [Accept] that returned an
    association, [on_association_released] after a release request,
    [on_association_aborted] after an abort. *)
Definition reported_next (e : Event) (rest : Trace) : Prop :=
  match e with
  | EvAccept _ _ _ _ (Some a) =>
      exists rest', rest = EvAccepted a :: EvEstablished :: rest'
  | EvCheckRelease true => exists rest', rest = EvReleased :: rest'
  | EvCheckAbort true => exists rest', rest = EvAborted :: rest'
  | _ => True
  end.

(** Every call of the trace is followed by the callbacks it requires. *)
Fixpoint lifecycle_reported (t : Trace) : Prop :=
  match t with
  | [] => True
  | e :: rest => reported_next e rest /\ lifecycle_reported rest
  end.

(** The invariant and the exceptions of an acceptor's worker. *)
Definition is_acceptor (s : Association) : Prop := mode s = Some Acceptor.
Definition no_exn (e : Exn) : Prop := False.

(** * Concrete associations and collaborators *)

Definition verification_uid : UID := "1.2.840.10008.1.1".
Definition ct_storage_uid : UID := "1.2.840.10008.5.1.4.1.1.2".
Definition implicit_vr : TransferSyntax := "1.2.840.10008.1.2".

(** A lookup of classes by UID with two classes. *)
Definition example_UID2SOPClass (uid : UID) : SOPClass :=
  if String.eqb uid verification_uid then "VerificationSOPClass"
  else if String.eqb uid ct_storage_uid then "CTImageStorageSOPClass"
  else "".

Definition example_ae (pool : list nat) : ApplicationEntity :=
  {| LocalAE := {| AET := "PYNETDICOM"; Address := "localhost"; Port := 11112 |};
     MaxAssociationIdleSeconds := 30;
     Associations := pool;
     MaxNumberOfAssociations := 2;
     AcceptablePresentationContexts := [(verification_uid, [implicit_vr])];
     PresentationContextDefinitionList := [(1, verification_uid, [implicit_vr])];
     MaxPDULength := 16382;
     has_OnAssociateResponse := false |}.

(** An entity that proposes one context and accepts none as SCP. *)
Definition scu_only_ae : ApplicationEntity :=
  {| LocalAE := {| AET := "PYNETDICOM"; Address := "localhost"; Port := 11112 |};
     MaxAssociationIdleSeconds := 30;
     Associations := [];
     MaxNumberOfAssociations := 2;
     AcceptablePresentationContexts := [];
     PresentationContextDefinitionList := [(1, verification_uid, [implicit_vr])];
     MaxPDULength := 16382;
     has_OnAssociateResponse := false |}.

Definition peer : AEInfo :=
  {| AET := "ANY-SCP"; Address := "localhost"; Port := 104 |}.

Definition example_assoc : A_ASSOCIATE :=
  {| Result := "Accepted"; calling := "ANY-SCU" |}.

(** The association the constructor builds for an inbound connection. *)
Definition new_acceptor (pool : list nat) : Association :=
  {| mode := Some Acceptor; ClientSocket := Some 7%nat; AE := example_ae pool;
     RemoteAE := None; SOPClassesAsSCP := []; SOPClassesAsSCU := [];
     AssociationEstablished := false; AssociationRefused := None;
     _Kill := false; daemon := true |}.

(** The association the constructor builds for an outbound request. *)
Definition new_requestor (ae : ApplicationEntity) : Association :=
  {| mode := Some Requestor; ClientSocket := None; AE := ae;
     RemoteAE := Some peer; SOPClassesAsSCP := []; SOPClassesAsSCU := [];
     AssociationEstablished := false; AssociationRefused := None;
     _Kill := false; daemon := true |}.

Definition start (s : Association) : World := {| self := s; trace := [] |}.

(** Collaborators for the examples: [Accept] returns [accepted], the peer
    sends [received] at every poll, [CheckAbort] answers [aborted], every
    other poll is negative, and the DUL provider stops at once. *)
Definition example_env (accepted : option A_ASSOCIATE)
  (received : option (Message * PCID)) (aborted : bool) : Env :=
  {| UID2SOPClass := example_UID2SOPClass;
     ACSE_Accept := fun _ _ _ result _ =>
                      match result with Some _ => None | None => accepted end;
     ACSE_Request := fun _ _ _ _ _ _ => (false, None);
     ACSE_AcceptedPresentationContexts := fun _ => [(1, verification_uid, implicit_vr)];
     ACSE_MaxPDULength := fun _ => 16382;
     ACSE_CheckRelease := fun _ => false;
     ACSE_CheckAbort := fun _ => aborted;
     DIMSE_Receive := fun _ => received;
     DUL_Stop := fun _ => true;
     DUL_isAlive := fun _ => true;
     DUL_idle_timer_expired := fun _ => false;
     SOP_SCU := fun _ _ _ _ => 0 |}.

Definition quiet_env : Env := example_env None None false.

Definition echo_on (pcid : PCID) : Message * PCID :=
  ({| AffectedSOPClassUID := verification_uid; MessageID := 1 |}, pcid).

Definition store_on (pcid : PCID) : Message * PCID :=
  ({| AffectedSOPClassUID := ct_storage_uid; MessageID := 1 |}, pcid).

Definition established_acceptor : Association :=
  set_AssociationEstablished true
    (set_SOPClassesAsSCP [(1, "VerificationSOPClass", implicit_vr)]
       (new_acceptor [1%nat])).

Definition negotiated_requestor : Association :=
  set_SOPClassesAsSCU [(1, "VerificationSOPClass", implicit_vr)]
    (new_requestor (example_ae [])).

(** The run of an accepted association that receives a C-ECHO on context 3,
    a context that was not negotiated, and is then aborted by the peer. *)
Definition unmatched_run : Outcome unit * World :=
  run (example_env (Some example_assoc) (Some (echo_on 3)) true) 1 1
      (start (new_acceptor [1%nat])).

(** A response status reaches the peer. *)
Definition status_sent (t : Trace) : Prop :=
  exists status pcid, In (EvDIMSESend status pcid) t.

(** The run of an accepted association that receives a C-STORE of a CT image
    on context 1, negotiated for verification, and is then aborted. *)
Definition mismatched_run : Outcome unit * World :=
  run (example_env (Some example_assoc) (Some (store_on 1)) true) 1 1
      (start (new_acceptor [1%nat])).

(** The handler invoked for a message is an instance of the class registered
    in the table for the message's context. *)
Definition handler_is_registered (w : World) : Prop :=
  forall obj msg pcid,
    In (EvReceive (Some (msg, pcid))) (trace w) ->
    In (EvSCP obj msg) (trace w) ->
    exists cls ts, In (pcid, cls, ts) (SOPClassesAsSCP (self w))
                   /\ obj_class obj = cls.

(** The run of a requestor whose entity proposes one context and accepts
    none. *)
Definition scu_only_run : Outcome unit * World :=
  run quiet_env 1 1 (start (new_requestor scu_only_ae)).

(** The items passed to [ACSE.Request] are one per proposed context, with
    that context's SOP class UID. *)
Definition one_item_per_proposed_context (t : Trace) : Prop :=
  forall l r m pcdl ext a resp,
    In (EvRequest l r m pcdl ext a resp) t ->
    map SOPClassUID ext = map (fun c => snd (fst c)) pcdl.

(** * The rest of the sources *)

(** ** Association.__getattr__ *)

(** How [__getattr__] can fail: [eval(attr)()] raised, or the class of the
    object is in no entry of [SOPClassesAsSCU] and the [IndexError] of the
    empty selection is raised again. *)
Inductive GetattrError :=
| EvalRaised (attr : string)
| IndexError.

(** [__getattr__(attr)], called for an attribute the instance does not have.
    [eval_call attr] stands for [eval(attr)()]: the class of the object it
    builds, or nothing when the evaluation or the call raises (the names the
    module sees come from modules that are not part of the sources).  The
    method makes no call to a collaborator and assigns nothing on [self].
    The result is the object it returns, in two parts: the attributes that
    [SCU] binds as well (class, context, [maxpdulength], [DIMSE], [AE]), as
    a [ServiceObject], and the value of the attribute [obj.RemoteAE], which
    only this method binds (line 164) and which is [self.AE]. *)
Definition __getattr__ (eval_call : string -> option SOPClass) (env : Env)
  (attr : string) (w : World)
  : GetattrError + (ServiceObject * ApplicationEntity) :=
  match eval_call attr with
  | None => inl (EvalRaised attr)
  | Some cls =>
      let obj := new_object cls in
      match matching_classes (obj_class obj) (SOPClassesAsSCU (self w)) with
      | [] => inl IndexError
      | x :: _ =>
          let obj := set_context obj x in
          let obj := bind_scu obj (ACSE_MaxPDULength env (trace w)) in
          inr (obj, AE (self w))
      end
  end.

(** ** apps/movescp/movescp.py *)

(** The transfer syntax UIDs of pydicom.uid. *)
Definition ImplicitVRLittleEndian : UID := "1.2.840.10008.1.2".
Definition ExplicitVRLittleEndian : UID := "1.2.840.10008.1.2.1".
Definition ExplicitVRBigEndian : UID := "1.2.840.10008.1.2.2".

(** [l.remove(x)] for an [x] that is in [l]: the first occurrence goes. *)
Fixpoint list_remove (x : UID) (l : list UID) : list UID :=
  match l with
  | [] => []
  | y :: l' => if String.eqb y x then l' else y :: list_remove x l'
  end.

(** [if ts in l: l.remove(ts); l.insert(0, ts)] *)
Definition prefer (ts : UID) (l : list UID) : list UID :=
  if existsb (String.eqb ts) l then ts :: list_remove ts l else l.

(** Lines 137 to 153: the list of transfer syntaxes from the options
    [--implicit], [--prefer-little] and [--prefer-big]. *)
Definition transfer_syntax (implicit prefer_little prefer_big : bool) : list UID :=
  let ts := [ImplicitVRLittleEndian; ExplicitVRLittleEndian; ExplicitVRBigEndian] in
  let ts := if implicit then [ImplicitVRLittleEndian] else ts in
  let ts := if prefer_little then prefer ExplicitVRLittleEndian ts else ts in
  let ts := if prefer_big then prefer ExplicitVRBigEndian ts else ts in
  ts.

(** [os.path.join(a, b)] on a POSIX system. *)
Definition starts_with_sep (b : string) : bool :=
  match b with
  | String c _ => Ascii.eqb c "/"%char
  | EmptyString => false
  end.

Fixpoint ends_with_sep (a : string) : bool :=
  match a with
  | EmptyString => false
  | String c EmptyString => Ascii.eqb c "/"%char
  | String _ a' => ends_with_sep a'
  end.

Definition os_path_join (a b : string) : string :=
  if starts_with_sep b then b
  else if (String.eqb a "" || ends_with_sep a)%bool then (a ++ b)%string
  else (a ++ "/" ++ b)%string.

(** What the generator [on_c_move] yields. *)
Inductive Yield :=
| YieldCount (n : nat)
| YieldDestination (addr : option string) (port : option Z)
| YieldDataset (data : Dataset).

(** [on_c_move(dataset, move_aet)]: the sequence of its yields, in order.
    [read_file] is pydicom's; [move_aet] is a byte string. *)
Definition on_c_move (read_file : string -> Dataset) (dataset : Dataset)
  (move_aet : string) : list Yield :=
  let basedir := "../test/dicom_files/" in
  let dcm_files := ["CTImageStorage.dcm"] in
  let dcm_files := map (fun x => os_path_join basedir x) dcm_files in
  [YieldCount (List.length dcm_files)] ++
  [if String.eqb move_aet "ANY-SCP         "
   then YieldDestination (Some "10.40.94.43") (Some 104)
   else YieldDestination None None] ++
  map (fun dcm => YieldDataset (read_file dcm)) dcm_files.

(** ** Vocabulary of the further properties *)

(** The calls the worker, [Kill], [Release] and [Abort] can make, apart from
    the two primitives of [Release] and [Abort] themselves: not the
    constructor's calls, not a DIMSE send, not a service object's [SCU]. *)
Definition worker_call (e : Event) : bool :=
  match e with
  | EvDULServiceProvider _ _ | EvThreadInit | EvThreadStart _
  | EvSCU _ _ _ _ | EvACSERelease _ | EvACSEAbort _ | EvDIMSESend _ _ => false
  | _ => true
  end.

(** All the calls of a trace are calls of the worker. *)
Definition worker_calls (t : Trace) : Prop := forallb worker_call t = true.

(** The attributes [run] never assigns. *)
Definition same_configuration (s0 s : Association) : Prop :=
  mode s = mode s0 /\ ClientSocket s = ClientSocket s0 /\ AE s = AE s0
  /\ RemoteAE s = RemoteAE s0 /\ daemon s = daemon s0.

(** The callbacks the requestor makes on an accepted answer [r], before
    [on_association_established]. *)
Definition accepted_callbacks (s : Association) (r : A_ASSOCIATE) : Trace :=
  (if has_OnAssociateResponse (AE s) then [EvOnAssociateResponse true] else []) ++
  (if String.eqb (Result r) "Accepted" then [EvAccepted r] else []).

(** The state in which the requestor enters the main loop. *)
Definition requestor_world (env : Env) (w : World) (r : A_ASSOCIATE) : World :=
  {| self :=
       set_AssociationEstablished true
         (set_SOPClassesAsSCU
            (build_SOPClasses env
               (ACSE_AcceptedPresentationContexts env
                  (request_history w ++ request_event env w ::
                   accepted_callbacks (self w) r)))
            (self w));
     trace := request_history w ++ request_event env w ::
              accepted_callbacks (self w) r ++ [EvEstablished] |}.

(** The calls of the main loop and of [Kill]: sleeps, polls, a handler's
    [SCP], the callbacks for a release and an abort. *)
Definition loop_call (e : Event) : bool :=
  match e with
  | EvSleep _ | EvReceive _ | EvSCP _ _ | EvCheckRelease _ | EvReleased
  | EvCheckAbort _ | EvAborted | EvIsAlive _ | EvIdleExpired _ | EvStop _ => true
  | _ => false
  end.

Definition loop_calls (t : Trace) : Prop := forallb loop_call t = true.

(** The flags of an association that is established and was not refused. *)
Definition established_flags (s : Association) : Prop :=
  AssociationEstablished s = true /\ AssociationRefused s = None.

(** The call of [on_association_established], and the calls that are not. *)
Definition established_call (e : Event) : bool :=
  match e with
  | EvEstablished => true
  | _ => false
  end.

Definition not_established_calls (t : Trace) : Prop :=
  forallb (fun e => negb (established_call e)) t = true.

(** An established association is not a refused one. *)
Definition flags_consistent (s : Association) : Prop :=
  ~ (AssociationEstablished s = true /\ AssociationRefused s = Some true).

(** Collaborators whose DUL provider never stops. *)
Definition stubborn_env : Env :=
  {| UID2SOPClass := example_UID2SOPClass;
     ACSE_Accept := fun _ _ _ _ _ => None;
     ACSE_Request := fun _ _ _ _ _ _ => (true, Some example_assoc);
     ACSE_AcceptedPresentationContexts := fun _ => [(1, verification_uid, implicit_vr)];
     ACSE_MaxPDULength := fun _ => 16382;
     ACSE_CheckRelease := fun _ => false;
     ACSE_CheckAbort := fun _ => false;
     DIMSE_Receive := fun _ => None;
     DUL_Stop := fun _ => false;
     DUL_isAlive := fun _ => true;
     DUL_idle_timer_expired := fun _ => false;
     SOP_SCU := fun _ _ _ _ => 0 |}.

(** Collaborators of an association that goes idle while its DUL provider
    does not stop: the idle timer is found expired at every check and
    [DUL.Stop()] always answers [False]. *)
Definition idle_unstoppable_env : Env :=
  {| UID2SOPClass := example_UID2SOPClass;
     ACSE_Accept := fun _ _ _ _ _ => Some example_assoc;
     ACSE_Request := fun _ _ _ _ _ _ => (false, None);
     ACSE_AcceptedPresentationContexts := fun _ => [(1, verification_uid, implicit_vr)];
     ACSE_MaxPDULength := fun _ => 16382;
     ACSE_CheckRelease := fun _ => false;
     ACSE_CheckAbort := fun _ => false;
     DIMSE_Receive := fun _ => None;
     DUL_Stop := fun _ => false;
     DUL_isAlive := fun _ => true;
     DUL_idle_timer_expired := fun _ => true;
     SOP_SCU := fun _ _ _ _ => 0 |}.

(** The main loop started in [w] exits: with enough fuel it returns. *)
Definition loop_exits (env : Env) (assoc : option A_ASSOCIATE) (w : World) : Prop :=
  exists kf fuel w', main_loop env kf fuel assoc w = (Returned tt, w').

(** The claim that an observation ends the loop: when the loop started in
    [w] comes to observe a release request, an abort, a dead DUL thread or an
    expired idle timer, it exits. *)
Definition observation_ends_loop (env : Env) (assoc : option A_ASSOCIATE)
  (w : World) : Prop :=
  (exists kf fuel,
      existsb is_trigger (trace (snd (main_loop env kf fuel assoc w))) = true) ->
  loop_exits env assoc w.

(** A lookup by name with the two classes of the examples. *)
Definition example_eval (attr : string) : option SOPClass :=
  if String.eqb attr "VerificationSOPClass" then Some "VerificationSOPClass"
  else if String.eqb attr "CTImageStorageSOPClass" then Some "CTImageStorageSOPClass"
  else None.

(** * Properties *)

(** ** The constructor *)

(** C9. Construction raises [ValueError], and starts no worker thread, when
    [ClientSocket] and [RemoteAE] are both absent or both present; with
    exactly one of them the instance gets mode ['Acceptor'] for a socket and
    ['Requestor'] for a peer AE, and its worker is started as a daemon. *)
Theorem init_mode_and_thread :
  forall (LocalAE : ApplicationEntity) (ClientSocket : option Socket)
         (RemoteAE : option AEInfo),
    match ClientSocket, RemoteAE with
    | None, None | Some _, Some _ =>
        (exists msg, fst (init LocalAE ClientSocket RemoteAE) = Raised (ValueError msg))
        /\ thread_started (snd (init LocalAE ClientSocket RemoteAE)) = false
    | Some _, None =>
        exists a, fst (init LocalAE ClientSocket RemoteAE) = Returned a
                  /\ mode a = Some Acceptor /\ daemon a = true
                  /\ In (EvThreadStart true) (snd (init LocalAE ClientSocket RemoteAE))
    | None, Some _ =>
        exists a, fst (init LocalAE ClientSocket RemoteAE) = Returned a
                  /\ mode a = Some Requestor /\ daemon a = true
                  /\ In (EvThreadStart true) (snd (init LocalAE ClientSocket RemoteAE))
    end.
Proof.
  intros LocalAE [s|] [r|]; cbn.
  - split; [eexists; reflexivity | reflexivity].
  - eexists; repeat split; auto.
  - eexists; repeat split; auto.
  - split; [eexists; reflexivity | reflexivity].
Qed.

(** ** SCU *)

Lemma matching_classes_none cls l :
  (forall x, In x l -> snd (fst x) <> cls) -> matching_classes cls l = [].
Proof.
  unfold matching_classes.
  induction l as [|y l IH]; intros H; [reflexivity|].
  cbn. destruct (String.eqb _ _) eqn:E.
  - exfalso. apply String.eqb_eq in E. apply (H y); [left; reflexivity | exact E].
  - apply IH. intros x Hx. apply H. right. exact Hx.
Qed.

Lemma matching_classes_first cls l1 x l2 :
  (forall y, In y l1 -> snd (fst y) <> cls) ->
  snd (fst x) = cls ->
  matching_classes cls (l1 ++ x :: l2) = x :: matching_classes cls l2.
Proof.
  unfold matching_classes.
  intros H Hx. induction l1 as [|y l1 IH]; cbn.
  - destruct (String.eqb _ _) eqn:E; [reflexivity|].
    apply String.eqb_neq in E. contradiction.
  - destruct (String.eqb _ _) eqn:E.
    + exfalso. apply String.eqb_eq in E. apply (H y); [left; reflexivity | exact E].
    + apply IH. intros z Hz. apply H. right. exact Hz.
Qed.

(** C10. A dataset whose SOP class is in no entry of [SOPClassesAsSCU] makes
    [SCU] raise "SOP Class ... not supported as SCU" with no call made and
    the association unchanged; otherwise the service object gets the context
    id and transfer syntax of the first entry for its class and the
    negotiated maximum PDU length, and only then its [SCU] method is called. *)
Theorem SCU_supported_or_raises :
  forall (env : Env) (ds : Dataset) (id : Z) (w : World),
    let cls := UID2SOPClass env (ds_SOPClassUID ds) in
    ((forall x, In x (SOPClassesAsSCU (self w)) -> snd (fst x) <> cls) ->
     SCU env ds id w =
       (Raised (Exception ("SOP Class " ++ ds_SOPClassUID ds ++ " not supported as SCU")%string), w))
    /\
    (forall l1 pcid ts l2,
        SOPClassesAsSCU (self w) = l1 ++ (pcid, cls, ts) :: l2 ->
        (forall y, In y l1 -> snd (fst y) <> cls) ->
        let obj := {| obj_class := cls; obj_pcid := Some pcid;
                      obj_sopclass := Some cls; obj_transfersyntax := Some ts;
                      obj_maxpdulength := Some (ACSE_MaxPDULength env (trace w));
                      obj_DIMSE := true; obj_ACSE := false; obj_AE := true;
                      obj_assoc := None |} in
        let status := SOP_SCU env (trace w) obj ds id in
        SCU env ds id w =
          (Returned status,
           {| self := self w; trace := trace w ++ [EvSCU obj ds id status] |})).
Proof.
  intros env ds id [s t] cls. split.
  - intros H. cbn [self] in H. unfold SCU, bind, get_self. cbn [self trace new_object obj_class].
    fold cls. rewrite (matching_classes_none _ _ H). reflexivity.
  - intros l1 pcid ts l2 E H obj status. cbn [self] in E.
    unfold SCU, bind, get_self. cbn [self trace new_object obj_class]. fold cls. rewrite E.
    rewrite (matching_classes_first cls l1 (pcid, cls, ts) l2 H eq_refl).
    reflexivity.
Qed.

(** ** Kill: the wait for the DUL provider *)

Lemma extend_extend w t1 t2 : extend (extend w t1) t2 = extend w (t1 ++ t2).
Proof. unfold extend; cbn. rewrite app_assoc. reflexivity. Qed.

Lemma extend_nil w : extend w [] = w.
Proof. destruct w; unfold extend; cbn. rewrite app_nil_r. reflexivity. Qed.

Lemma In_kill_chunk j : In (EvStop true) (kill_chunk j).
Proof. induction j; cbn; auto. Qed.

Lemma last_kill_chunk j : exists t, kill_chunk j = t ++ [EvStop true].
Proof.
  induction j as [|j [t IH]]; cbn.
  - exists []. reflexivity.
  - exists (EvStop false :: EvSleep 1 :: t). rewrite IH. reflexivity.
Qed.

Lemma kill_chunk_wait j : kill_chunk j = wait_chunk j ++ [EvStop true].
Proof. induction j; cbn; [|rewrite IHj]; reflexivity. Qed.

Section KillFacts.

Variable env : Env.

Lemma Kill_wait_returns k :
  forall w, stops_within env (trace w) k = true ->
    exists j, (j <= k)%nat /\
      forall fuel, (j < fuel)%nat ->
        Kill_wait env fuel w = (Returned tt, extend w (kill_chunk j)).
Proof.
  induction k as [|k IH]; intros w Hs; cbn in Hs.
  - rewrite orb_false_r in Hs. exists O. split; [lia|].
    intros [|fuel] Hf; [lia|]. cbn. unfold bind, ask. rewrite Hs. reflexivity.
  - destruct (DUL_Stop env (trace w)) eqn:E.
    + exists O. split; [lia|].
      intros [|fuel] Hf; [lia|]. cbn. unfold bind, ask. rewrite E. reflexivity.
    + cbn in Hs.
      destruct (IH (extend w [EvStop false; EvSleep 1]) Hs) as [j [Hj Hrun]].
      exists (S j). split; [lia|].
      intros [|fuel] Hf; [lia|]. cbn. unfold bind, ask, emit. rewrite E. cbn.
      assert (Hlt : (j < fuel)%nat) by lia.
      specialize (Hrun fuel Hlt).
      unfold extend in Hrun |- *. cbn in Hrun |- *.
      rewrite <- !app_assoc in Hrun |- *. cbn in Hrun |- *. exact Hrun.
Qed.

(** Whatever the fuel, [Kill_wait] ends in one of two ways: it returns after
    a poll answered [True], or it is still polling. It never raises and never
    touches the association. *)
Lemma Kill_wait_cases fuel :
  forall w,
    (exists j, Kill_wait env fuel w = (Returned tt, extend w (kill_chunk j)))
    \/ (exists j, Kill_wait env fuel w = (OutOfFuel, extend w (wait_chunk j))).
Proof.
  induction fuel as [|fuel IH]; intros w.
  - right. exists O. cbn. rewrite extend_nil. reflexivity.
  - cbn. unfold bind, ask, emit.
    destruct (DUL_Stop env (trace w)) eqn:E.
    + left. exists O. reflexivity.
    + cbn.
      match goal with
      | |- context [Kill_wait env fuel ?w1] =>
          destruct (IH w1) as [[j Hj]|[j Hj]]; rewrite Hj
      end.
      * left. exists (S j). unfold extend; cbn. rewrite <- !app_assoc. reflexivity.
      * right. exists (S j). unfold extend; cbn. rewrite <- !app_assoc. reflexivity.
Qed.

Lemma Kill_returns (H : Stop_eventually env) :
  forall w, exists j, forall fuel, (j < fuel)%nat ->
    Kill env fuel w = (Returned tt, killed w j).
Proof.
  intros w.
  destruct (H (trace w)) as [k Hk].
  destruct (Kill_wait_returns k {| self := set_Kill true (self w); trace := trace w |} Hk)
    as [j [_ Hj]].
  exists j. intros fuel Hf. unfold Kill, bind, modify.
  rewrite (Hj fuel Hf). reflexivity.
Qed.

Lemma Kill_cases fuel w :
  (exists j, Kill env fuel w = (Returned tt, killed w j))
  \/ (exists j, Kill env fuel w =
                (OutOfFuel, {| self := set_Kill true (self w);
                               trace := trace w ++ wait_chunk j |})).
Proof.
  unfold Kill, bind, modify.
  destruct (Kill_wait_cases fuel {| self := set_Kill true (self w); trace := trace w |})
    as [[j Hj]|[j Hj]]; rewrite Hj; [left|right]; exists j; reflexivity.
Qed.

End KillFacts.

Lemma Kill_wait_never_stops env :
  (forall h, DUL_Stop env h = false) ->
  forall fuel w,
    Kill_wait env fuel w = (OutOfFuel, extend w (wait_chunk fuel)).
Proof.
  intros Hno. induction fuel as [|fuel IH]; intros w.
  - cbn. rewrite extend_nil. reflexivity.
  - cbn [Kill_wait]. unfold bind at 1, ask at 1. rewrite Hno.
    unfold bind at 1, emit at 1. rewrite IH.
    unfold extend; cbn. rewrite <- !app_assoc. reflexivity.
Qed.

Lemma Stop_fails_step env h j :
  DUL_Stop env h = false ->
  Stop_fails env (h ++ [EvStop false; EvSleep 1]) j ->
  Stop_fails env h (S j).
Proof.
  intros E H [|i] Hi.
  - cbn. rewrite app_nil_r. exact E.
  - cbn [wait_chunk].
    assert (Hlt : (i < j)%nat) by lia.
    specialize (H i Hlt). rewrite <- app_assoc in H. exact H.
Qed.

(** However much fuel it has, [Kill_wait] returns at the first poll that
    answers [True], or is still polling after polls that all failed. *)
Lemma Kill_wait_outcome env fuel :
  forall w,
    (exists j, Kill_wait env fuel w = (Returned tt, extend w (kill_chunk j))
               /\ Stop_at env (trace w) j)
    \/ (exists j, Kill_wait env fuel w = (OutOfFuel, extend w (wait_chunk j))
                  /\ Stop_fails env (trace w) j).
Proof.
  induction fuel as [|fuel IH]; intros w.
  - right. exists O. cbn. rewrite extend_nil. split; [reflexivity|].
    intros i Hi. lia.
  - remember (Kill_wait env (S fuel) w) as r eqn:Er.
    cbn [Kill_wait] in Er. unfold bind at 1, ask at 1 in Er.
    destruct (DUL_Stop env (trace w)) eqn:E.
    + left. exists O. split; [exact Er|]. split.
      * intros i Hi. lia.
      * cbn. rewrite app_nil_r. exact E.
    + unfold bind at 1, emit at 1 in Er. cbn [self trace] in Er.
      destruct (IH {| self := self w;
                      trace := (trace w ++ [EvStop false]) ++ [EvSleep 1] |})
        as [[j [Hj Hs]]|[j [Hj Hs]]]; rewrite Hj in Er; cbn [trace] in Hs;
        rewrite <- app_assoc in Hs; cbn [app] in Hs.
      * left. exists (S j). split.
        { rewrite Er. unfold extend; cbn. rewrite <- !app_assoc. reflexivity. }
        destruct Hs as [Hf Ht]. split.
        { apply Stop_fails_step; assumption. }
        cbn [wait_chunk]. rewrite <- app_assoc in Ht. exact Ht.
      * right. exists (S j). split.
        { rewrite Er. unfold extend; cbn. rewrite <- !app_assoc. reflexivity. }
        apply Stop_fails_step; assumption.
Qed.

Lemma Kill_outcome env fuel w :
  (exists j, Kill env fuel w = (Returned tt, killed w j) /\ Stop_at env (trace w) j)
  \/ (exists j, Kill env fuel w =
                  (OutOfFuel, {| self := set_Kill true (self w);
                                 trace := trace w ++ wait_chunk j |})
                /\ Stop_fails env (trace w) j).
Proof.
  unfold Kill, bind, modify.
  destruct (Kill_wait_outcome env fuel
              {| self := set_Kill true (self w); trace := trace w |})
    as [[j [Hj Hs]]|[j [Hj Hs]]]; rewrite Hj; [left|right]; exists j;
    (split; [reflexivity | exact Hs]).
Qed.

Lemma Kill_never_returns env :
  (forall h, DUL_Stop env h = false) ->
  forall fuel w,
    Kill env fuel w =
      (OutOfFuel,
       {| self := set_Kill true (self w); trace := trace w ++ wait_chunk fuel |}).
Proof.
  intros Hno fuel w. unfold Kill, bind, modify.
  rewrite (Kill_wait_never_stops env Hno). reflexivity.
Qed.

(** A loop whose flag is set ends at its test. *)
Lemma main_loop_killed env kf n assoc w :
  _Kill (self w) = true -> main_loop env kf n assoc w = (Returned tt, w).
Proof.
  intros Hk. destruct n; cbn [main_loop]; unfold bind, get_self; rewrite Hk; reflexivity.
Qed.


(** ** One iteration of the main loop *)

Section IterationFacts.

Variable env : Env.
Hypothesis Hstop : Stop_eventually env.

Lemma cond_Kill_returns (c : bool) (w : World) :
  exists j, forall kf, (j < kf)%nat ->
    (if c then Kill env kf else ret tt) w =
      (Returned tt, if c then killed w j else w).
Proof.
  destruct c.
  - apply Kill_returns. exact Hstop.
  - exists O. reflexivity.
Qed.

Lemma set_Kill_idem s : set_Kill true (set_Kill true s) = set_Kill true s.
Proof. reflexivity. Qed.

Lemma polls_returns (w : World) :
  exists (b1 : bool) (j1 : nat) (b2 : bool) (j2 : nat)
         (b3 : bool) (j3 : nat) (b4 : bool) (j4 : nat),
    b1 = ACSE_CheckRelease env (trace w) /\
    forall kf, (j1 + j2 + j3 + j4 < kf)%nat ->
      polls env kf w =
        (Returned (if b2 then Return else Continue),
         polls_world w b1 j1 b2 j2 b3 j3 b4 j4).
Proof.
  pose (b1 := ACSE_CheckRelease env (trace w)).
  pose (w1 := extend w [EvCheckRelease b1]).
  destruct (cond_Kill_returns b1 (if b1 then extend w1 [EvReleased] else w1))
    as [j1 H1].
  pose (w2 := if b1 then killed (extend w1 [EvReleased]) j1 else w1).
  pose (b2 := ACSE_CheckAbort env (trace w2)).
  pose (w3 := extend w2 [EvCheckAbort b2]).
  destruct (cond_Kill_returns b2 (if b2 then extend w3 [EvAborted] else w3))
    as [j2 H2].
  pose (b3 := DUL_isAlive env (trace w3)).
  pose (w4 := extend w3 [EvIsAlive b3]).
  destruct (cond_Kill_returns (negb b3) w4) as [j3 H3].
  pose (w5 := if negb b3 then killed w4 j3 else w4).
  pose (b4 := DUL_idle_timer_expired env (trace w5)).
  pose (w6 := extend w5 [EvIdleExpired b4]).
  destruct (cond_Kill_returns b4 w6) as [j4 H4].
  exists b1, j1, b2, j2, b3, j3, b4, j4. split; [reflexivity|].
  intros kf Hkf.
  assert (L1 : (j1 < kf)%nat) by lia. assert (L2 : (j2 < kf)%nat) by lia.
  assert (L3 : (j3 < kf)%nat) by lia. assert (L4 : (j4 < kf)%nat) by lia.
  specialize (H1 kf L1). specialize (H2 kf L2).
  specialize (H3 kf L3). specialize (H4 kf L4).
  unfold polls, bind at 1, ask at 1. fold b1. fold w1.
  unfold bind at 1.
  assert (E1 : (if b1 then emit EvReleased;;; Kill env kf else ret tt) w1
               = (Returned tt, w2)).
  { subst w2. destruct b1; [|reflexivity]. exact H1. }
  replace ({| self := self w; trace := trace w ++ [EvCheckRelease b1] |}) with w1
    by reflexivity.
  rewrite E1.
  unfold bind at 1, ask at 1. fold b2.
  replace ({| self := self w2; trace := trace w2 ++ [EvCheckAbort b2] |}) with w3
    by reflexivity.
  destruct b2 eqn:Eb2.
  - (* abort observed *)
    unfold bind, emit.
    replace ({| self := self w3; trace := trace w3 ++ [EvAborted] |})
      with (extend w3 [EvAborted]) by reflexivity.
    rewrite H2. unfold ret. f_equal.
    subst w3 w2 w1. unfold polls_world, polls_kill, polls_trace, killed, extend.
    destruct b1; cbn; rewrite <- ?app_assoc; cbn; rewrite <- ?app_assoc; reflexivity.
  - unfold bind at 1, ask at 1. fold b3.
    replace ({| self := self w3; trace := trace w3 ++ [EvIsAlive b3] |}) with w4
      by reflexivity.
    unfold bind at 1.
    assert (E3 : (if negb b3 then Kill env kf else ret tt) w4 = (Returned tt, w5)).
    { subst w5. rewrite H3. reflexivity. }
    rewrite E3.
    unfold bind at 1, ask at 1. fold b4.
    replace ({| self := self w5; trace := trace w5 ++ [EvIdleExpired b4] |}) with w6
      by reflexivity.
    unfold bind. rewrite H4. unfold ret. f_equal.
    subst w6 w5 w4 w3 w2 w1.
    unfold polls_world, polls_kill, polls_trace, killed, extend.
    destruct b1, b3, b4; cbn; rewrite <- ?app_assoc; cbn;
      rewrite <- ?app_assoc; cbn; rewrite <- ?app_assoc; reflexivity.
Qed.

End IterationFacts.

(** ** Dispatch of a received message *)

Lemma set_context_twice o x y : set_context (set_context o x) y = set_context o y.
Proof. reflexivity. Qed.

Lemma match_context_fold pcid table :
  forall o m,
    fold_left
      (fun (st : ServiceObject * bool) sop_class =>
         if fst (fst sop_class) =? pcid
         then (set_context (fst st) sop_class, true)
         else st)
      table (o, m)
    = match last_entry pcid table with
      | Some x => (set_context o x, true)
      | None => (o, m)
      end.
Proof.
  unfold last_entry.
  induction table as [|a table IH] using rev_ind; intros o m; [reflexivity|].
  rewrite fold_left_app, rev_unit. cbn [fold_left find]. rewrite IH.
  destruct (fst (fst a) =? pcid) eqn:E.
  - match goal with |- context [find ?f ?l] => destruct (find f l) end; reflexivity.
  - reflexivity.
Qed.

Lemma match_context_last pcid table o :
  match_context pcid table o =
    match last_entry pcid table with
    | Some x => (set_context o x, true)
    | None => (o, false)
    end.
Proof. unfold match_context. apply match_context_fold. Qed.

Lemma last_entry_none pcid table :
  (forall x, In x table -> fst (fst x) <> pcid) -> last_entry pcid table = None.
Proof.
  intros H. unfold last_entry.
  match goal with |- context [find ?f ?l] => destruct (find f l) as [x|] eqn:E end;
    [|reflexivity].
  apply find_some in E. destruct E as [Hin Hx].
  apply in_rev in Hin. apply Z.eqb_eq in Hx. exfalso. exact (H x Hin Hx).
Qed.

Lemma last_entry_some pcid l1 x l2 :
  fst (fst x) = pcid ->
  (forall y, In y l2 -> fst (fst y) <> pcid) ->
  last_entry pcid (l1 ++ x :: l2) = Some x.
Proof.
  intros Hx H. unfold last_entry.
  rewrite rev_app_distr. cbn [rev]. rewrite <- app_assoc. cbn [app].
  induction l2 as [|y l2 IH] using rev_ind.
  - cbn [rev app find]. apply Z.eqb_eq in Hx. rewrite Hx. reflexivity.
  - rewrite rev_unit. cbn [app find].
    destruct (fst (fst y) =? pcid) eqn:E.
    + apply Z.eqb_eq in E. exfalso. apply (H y); [|exact E].
      apply in_or_app. right. left. reflexivity.
    + apply IH. intros z Hz. apply H. apply in_or_app. left. exact Hz.
Qed.

Lemma dispatch_eq env assoc msg pcid w :
  dispatch env assoc msg pcid w =
    (Returned tt,
     extend w [EvSCP (handler_object env (SOPClassesAsSCP (self w)) assoc msg pcid
                        (ACSE_MaxPDULength env (trace w))) msg]).
Proof.
  unfold dispatch, handler_object, bind, get_self, read, emit, ret, extend.
  destruct (match_context pcid (SOPClassesAsSCP (self w)) _) as [o m].
  destruct m; reflexivity.
Qed.

Lemma receive_and_dispatch_some env assoc w msg pcid :
  DIMSE_Receive env (trace w) = Some (msg, pcid) ->
  receive_and_dispatch env assoc w =
    (Returned tt,
     extend w [EvReceive (Some (msg, pcid));
               EvSCP (handler_object env (SOPClassesAsSCP (self w)) assoc msg pcid
                        (ACSE_MaxPDULength env (trace w ++ [EvReceive (Some (msg, pcid))])))
                     msg]).
Proof.
  intros E. unfold receive_and_dispatch, bind, ask. rewrite E.
  rewrite dispatch_eq. unfold extend; cbn. rewrite <- app_assoc. reflexivity.
Qed.

Lemma receive_and_dispatch_none env assoc w :
  DIMSE_Receive env (trace w) = None ->
  receive_and_dispatch env assoc w = (Returned tt, extend w [EvReceive None]).
Proof.
  intros E. unfold receive_and_dispatch, bind, ask. rewrite E. reflexivity.
Qed.

Lemma main_loop_acceptor_step env kf n assoc w :
  mode (self w) = Some Acceptor ->
  _Kill (self w) = false ->
  main_loop env kf (S n) assoc w =
    (receive_and_dispatch env assoc ;;; rest_of_iteration env kf n assoc)
      (extend w [EvSleep 1]).
Proof.
  intros Hm Hk. cbn [main_loop]. unfold bind at 1, get_self at 1.
  rewrite Hk, Hm. unfold bind at 1, emit at 1.
  unfold acceptor_iteration, rest_of_iteration, extend.
  unfold bind. destruct (receive_and_dispatch env assoc _) as [[ | | ] w1]; reflexivity.
Qed.

Lemma receive_and_dispatch_eq env assoc w :
  receive_and_dispatch env assoc w =
    (Returned tt,
     extend w (received_trace env assoc (SOPClassesAsSCP (self w)) (trace w))).
Proof.
  unfold received_trace.
  destruct (DIMSE_Receive env (trace w)) as [[msg pcid]|] eqn:E.
  - apply receive_and_dispatch_some. exact E.
  - apply receive_and_dispatch_none. exact E.
Qed.

(** ** What ends the main loop *)

Lemma stop_follows_app t1 t2 :
  stop_follows_trigger t1 -> stop_follows_trigger t2 ->
  stop_follows_trigger (t1 ++ t2).
Proof.
  induction t1 as [|e t1 IH]; cbn; intros H1 H2; [exact H2|].
  destruct H1 as [Ha Hb]. split.
  - intros He. apply in_or_app. left. exact (Ha He).
  - exact (IH Hb H2).
Qed.

Lemma stop_follows_kill j : stop_follows_trigger (kill_chunk j).
Proof.
  induction j; cbn; repeat split; try discriminate; assumption.
Qed.

Lemma no_trigger_kill j : existsb is_trigger (kill_chunk j) = false.
Proof. induction j; cbn; auto. Qed.

Lemma stop_follows_received env assoc table h :
  stop_follows_trigger (received_trace env assoc table h).
Proof.
  unfold received_trace. destruct (DIMSE_Receive env h) as [[msg pcid]|];
    cbn; repeat split; discriminate.
Qed.

Lemma no_trigger_received env assoc table h :
  existsb is_trigger (received_trace env assoc table h) = false.
Proof.
  unfold received_trace. destruct (DIMSE_Receive env h) as [[msg pcid]|];
    reflexivity.
Qed.

Lemma stop_follows_polls b1 j1 b2 j2 b3 j3 b4 j4 :
  stop_follows_trigger (polls_trace b1 j1 b2 j2 b3 j3 b4 j4).
Proof.
  pose proof (In_kill_chunk j1). pose proof (In_kill_chunk j2).
  pose proof (In_kill_chunk j3). pose proof (In_kill_chunk j4).
  pose proof (stop_follows_kill j1). pose proof (stop_follows_kill j2).
  pose proof (stop_follows_kill j3). pose proof (stop_follows_kill j4).
  unfold polls_trace.
  destruct b1, b2, b3, b4; cbn;
    repeat first
      [ assumption
      | exact I
      | apply stop_follows_app
      | split
      | discriminate
      | (intros _; cbn;
         repeat first [ assumption
                      | (apply in_or_app; left; assumption)
                      | (apply in_or_app; right)
                      | (right; assumption)
                      | right ]) ].
Qed.

Lemma trigger_polls b1 j1 b2 j2 b3 j3 b4 j4 :
  existsb is_trigger (polls_trace b1 j1 b2 j2 b3 j3 b4 j4) = polls_kill b1 b2 b3 b4.
Proof.
  unfold polls_trace, polls_kill.
  destruct b1, b2, b3, b4; cbn;
    rewrite ?existsb_app; cbn; rewrite ?existsb_app; cbn;
    rewrite ?no_trigger_kill; cbn; rewrite ?no_trigger_kill; reflexivity.
Qed.

(** ** The polls of an iteration, whether or not the DUL provider stops *)

Lemma polls_outcome_eq env w r r' :
  polls_outcome env w r -> r = r' -> polls_outcome env w r'.
Proof. intros H E. rewrite <- E. exact H. Qed.

Ltac flatten_in H := rewrite <- ?app_assoc in H; cbn [app] in H.

Lemma alive_and_idle_outcome env kf w :
  (exists j,
      DUL_isAlive env (trace w) = false /\
      Stop_fails env (trace w ++ [EvIsAlive false]) j /\
      alive_and_idle env kf w =
        (OutOfFuel, {| self := set_Kill true (self w);
                       trace := trace w ++ EvIsAlive false :: wait_chunk j |}))
  \/ (exists j3 j,
      (DUL_isAlive env (trace w) = false ->
       Stop_at env (trace w ++ [EvIsAlive false]) j3) /\
      DUL_idle_timer_expired env
        (trace w ++ alive_part (DUL_isAlive env (trace w)) j3) = true /\
      Stop_fails env
        (trace w ++ alive_part (DUL_isAlive env (trace w)) j3 ++ [EvIdleExpired true]) j /\
      alive_and_idle env kf w =
        (OutOfFuel, {| self := set_Kill true (self w);
                       trace := trace w ++ alive_part (DUL_isAlive env (trace w)) j3 ++
                                EvIdleExpired true :: wait_chunk j |}))
  \/ (exists j3 j4 b4,
      (DUL_isAlive env (trace w) = false ->
       Stop_at env (trace w ++ [EvIsAlive false]) j3) /\
      b4 = DUL_idle_timer_expired env
             (trace w ++ alive_part (DUL_isAlive env (trace w)) j3) /\
      (b4 = true ->
       Stop_at env
         (trace w ++ alive_part (DUL_isAlive env (trace w)) j3 ++ [EvIdleExpired true])
         j4) /\
      alive_and_idle env kf w =
        (Returned Continue,
         {| self := if negb (DUL_isAlive env (trace w)) || b4
                    then set_Kill true (self w) else self w;
            trace := trace w ++ alive_part (DUL_isAlive env (trace w)) j3 ++
                     EvIdleExpired b4 :: (if b4 then kill_chunk j4 else []) |})).
Proof.
  remember (alive_and_idle env kf w) as r eqn:Er.
  unfold alive_and_idle, bind at 1, ask at 1 in Er.
  destruct (DUL_isAlive env (trace w)) eqn:E3; cbn [negb] in Er.
  - (* the DUL thread is alive *)
    unfold bind at 1, ret at 1 in Er. unfold bind at 1, ask at 1 in Er.
    cbn [self trace] in Er.
    destruct (DUL_idle_timer_expired env (trace w ++ [EvIsAlive true])) eqn:E4.
    + unfold bind at 1 in Er.
      destruct (Kill_outcome env kf
                  {| self := self w;
                     trace := (trace w ++ [EvIsAlive true]) ++ [EvIdleExpired true] |})
        as [[j [Hj Hs]]|[j [Hj Hs]]]; rewrite Hj in Er; cbn [trace] in Hs;
        flatten_in Hs.
      * right; right. exists O, j, true.
        split; [discriminate|]. split; [symmetry; exact E4|].
        split; [intros _; exact Hs|].
        rewrite Er. unfold ret, killed, alive_part. cbn. rewrite <- !app_assoc. reflexivity.
      * right; left. exists O, j.
        split; [discriminate|]. split; [exact E4|]. split; [exact Hs|].
        rewrite Er. unfold alive_part. cbn. rewrite <- !app_assoc. reflexivity.
    + right; right. exists O, O, false.
      split; [discriminate|]. split; [symmetry; exact E4|]. split; [discriminate|].
      rewrite Er. unfold bind, ret, alive_part. cbn. rewrite <- !app_assoc. reflexivity.
  - (* the DUL thread is dead *)
    unfold bind at 1 in Er.
    destruct (Kill_outcome env kf
                {| self := self w; trace := trace w ++ [EvIsAlive false] |})
      as [[j3 [Hj Hs3]]|[j [Hj Hs3]]]; rewrite Hj in Er; cbn [trace] in Hs3.
    + unfold bind at 1, ask at 1 in Er. unfold killed in Er. cbn [self trace] in Er.
      assert (Eh : (trace w ++ [EvIsAlive false]) ++ kill_chunk j3
                   = trace w ++ alive_part false j3).
      { unfold alive_part. rewrite <- app_assoc. reflexivity. }
      rewrite Eh in Er.
      destruct (DUL_idle_timer_expired env (trace w ++ alive_part false j3)) eqn:E4.
      * unfold bind at 1 in Er.
        destruct (Kill_outcome env kf
                    {| self := set_Kill true (self w);
                       trace := (trace w ++ alive_part false j3) ++ [EvIdleExpired true] |})
          as [[j4 [Hj4 Hs4]]|[j [Hj4 Hs4]]]; rewrite Hj4 in Er; cbn [trace] in Hs4;
          rewrite <- app_assoc in Hs4.
        -- right; right. exists j3, j4, true.
           split; [intros _; exact Hs3|]. split; [symmetry; exact E4|].
           split; [intros _; exact Hs4|].
           rewrite Er. unfold ret, killed. cbn. rewrite <- !app_assoc. reflexivity.
        -- right; left. exists j3, j.
           split; [intros _; exact Hs3|]. split; [exact E4|]. split; [exact Hs4|].
           rewrite Er. cbn. rewrite <- !app_assoc. reflexivity.
      * right; right. exists j3, O, false.
        split; [intros _; exact Hs3|]. split; [symmetry; exact E4|].
        split; [discriminate|].
        rewrite Er. unfold bind, ret. cbn. rewrite <- !app_assoc. reflexivity.
    + left. exists j. split; [reflexivity|]. split; [exact Hs3|].
      rewrite Er. cbn. rewrite <- !app_assoc. reflexivity.
Qed.

Lemma release_stage_outcome env kf w :
  (exists j,
      ACSE_CheckRelease env (trace w) = true /\
      Stop_fails env (trace w ++ [EvCheckRelease true; EvReleased]) j /\
      polls env kf w = (OutOfFuel, waiting w [EvCheckRelease true; EvReleased] j))
  \/ (exists j1,
      (ACSE_CheckRelease env (trace w) = true ->
       Stop_at env (trace w ++ [EvCheckRelease true; EvReleased]) j1) /\
      polls env kf w =
        abort_check env kf
          {| self := if ACSE_CheckRelease env (trace w)
                     then set_Kill true (self w) else self w;
             trace := trace w ++ release_part (ACSE_CheckRelease env (trace w)) j1 |}).
Proof.
  change (polls env kf w) with
    ((released <- ask (ACSE_CheckRelease env) EvCheckRelease ;;
      (if released then emit EvReleased ;;; Kill env kf else ret tt) ;;;
      abort_check env kf) w).
  remember ((released <- ask (ACSE_CheckRelease env) EvCheckRelease ;;
             (if released then emit EvReleased ;;; Kill env kf else ret tt) ;;;
             abort_check env kf) w) as r eqn:Er.
  unfold bind at 1, ask at 1 in Er.
  destruct (ACSE_CheckRelease env (trace w)) eqn:E1.
  - unfold bind at 1 in Er. unfold bind at 1, emit at 1 in Er. cbn [self trace] in Er.
    destruct (Kill_outcome env kf
                {| self := self w;
                   trace := (trace w ++ [EvCheckRelease true]) ++ [EvReleased] |})
      as [[j1 [Hj Hs]]|[j [Hj Hs]]]; rewrite Hj in Er; cbn [trace] in Hs;
      flatten_in Hs.
    + right. exists j1. split; [intros _; exact Hs|].
      rewrite Er. unfold killed, release_part. cbn.
      rewrite <- !app_assoc. reflexivity.
    + left. exists j. split; [reflexivity|]. split; [exact Hs|].
      rewrite Er. unfold waiting. cbn. rewrite <- !app_assoc. reflexivity.
  - right. exists O. split; [discriminate|].
    rewrite Er. unfold bind, ret, release_part. reflexivity.
Qed.

Lemma abort_stage_outcome env kf w :
  (exists j2,
      ACSE_CheckAbort env (trace w) = true /\
      Stop_at env (trace w ++ [EvCheckAbort true; EvAborted]) j2 /\
      abort_check env kf w =
        (Returned Return,
         {| self := set_Kill true (self w);
            trace := trace w ++ EvCheckAbort true :: EvAborted :: kill_chunk j2 |}))
  \/ (exists j,
      ACSE_CheckAbort env (trace w) = true /\
      Stop_fails env (trace w ++ [EvCheckAbort true; EvAborted]) j /\
      abort_check env kf w =
        (OutOfFuel,
         {| self := set_Kill true (self w);
            trace := trace w ++ EvCheckAbort true :: EvAborted :: wait_chunk j |}))
  \/ (ACSE_CheckAbort env (trace w) = false /\
      abort_check env kf w =
        alive_and_idle env kf (extend w [EvCheckAbort false])).
Proof.
  remember (abort_check env kf w) as r eqn:Er.
  unfold abort_check, bind at 1, ask at 1 in Er.
  destruct (ACSE_CheckAbort env (trace w)) eqn:E2.
  - unfold bind at 1, emit at 1 in Er. cbn [self trace] in Er.
    unfold bind at 1 in Er.
    destruct (Kill_outcome env kf
                {| self := self w;
                   trace := (trace w ++ [EvCheckAbort true]) ++ [EvAborted] |})
      as [[j2 [Hj Hs]]|[j [Hj Hs]]]; rewrite Hj in Er; cbn [trace] in Hs;
      flatten_in Hs.
    + left. exists j2. split; [reflexivity|]. split; [exact Hs|].
      rewrite Er. unfold ret, killed. cbn. rewrite <- !app_assoc. reflexivity.
    + right; left. exists j. split; [reflexivity|]. split; [exact Hs|].
      rewrite Er. cbn. rewrite <- !app_assoc. reflexivity.
  - right; right. split; [reflexivity|]. rewrite Er. reflexivity.
Qed.

(** The four polls come to one of the outcomes of [polls_outcome], whatever
    the providers answer and however long [Kill] may wait. *)
Lemma polls_outcome_holds env kf w : polls_outcome env w (polls env kf w).
Proof.
  destruct (release_stage_outcome env kf w) as [[j [E1 [Hs Hp]]]|[j1 [Hs1 Hp]]].
  { rewrite Hp. apply polls_wait_release; assumption. }
  rewrite Hp. clear Hp.
  set (b1 := ACSE_CheckRelease env (trace w)) in *.
  set (w2 := {| self := if b1 then set_Kill true (self w) else self w;
                trace := trace w ++ release_part b1 j1 |}).
  destruct (abort_stage_outcome env kf w2)
    as [[j2 [E2 [Hs2 Ha]]]|[[j [E2 [Hs2 Ha]]]|[E2 Ha]]];
    rewrite Ha; clear Ha; cbn [self trace w2] in *.
  - flatten_in Hs2.
    eapply polls_outcome_eq; [exact (polls_abort env w b1 j1 j2 eq_refl Hs1 E2 Hs2)|].
    f_equal. unfold polls_world, polls_kill, polls_trace, release_part.
    destruct b1; cbn; rewrite <- ?app_assoc; cbn; rewrite <- ?app_assoc; reflexivity.
  - flatten_in Hs2.
    eapply polls_outcome_eq;
      [exact (polls_wait_abort env w b1 j1 j eq_refl Hs1 E2 Hs2)|].
    f_equal. unfold waiting, release_part.
    destruct b1; cbn; rewrite <- ?app_assoc; cbn; rewrite <- ?app_assoc; reflexivity.
  - set (w3 := extend w2 [EvCheckAbort false]).
    assert (Eh : trace w3 = trace w ++ release_part b1 j1 ++ [EvCheckAbort false]).
    { unfold w3, w2, extend. cbn. rewrite <- app_assoc. reflexivity. }
    destruct (alive_and_idle_outcome env kf w3)
      as [[j [E3 [Hs3 Hi]]]|[[j3 [j [Hs3 [E4 [Hs4 Hi]]]]]|[j3 [j4 [b4 [Hs3 [E4 [Hs4 Hi]]]]]]]];
      rewrite Hi; clear Hi; rewrite Eh in *.
    + flatten_in Hs3.
      eapply polls_outcome_eq;
        [exact (polls_wait_alive env w b1 j1 j eq_refl Hs1 E2 E3 Hs3)|].
      f_equal. unfold waiting, release_part.
      destruct b1; cbn; rewrite <- ?app_assoc; cbn; rewrite <- ?app_assoc; reflexivity.
    + set (b3 := DUL_isAlive env (trace w ++ release_part b1 j1 ++ [EvCheckAbort false])) in *.
      flatten_in Hs3. flatten_in E4. flatten_in Hs4.
      eapply polls_outcome_eq;
        [exact (polls_wait_idle env w b1 j1 b3 j3 j eq_refl Hs1 E2 eq_refl Hs3 E4 Hs4)|].
      f_equal. unfold waiting, release_part, alive_part.
      clear Hs1 Hs3 E4 Hs4.
      destruct b1, b3; cbn; rewrite <- ?app_assoc; cbn; rewrite <- ?app_assoc; reflexivity.
    + set (b3 := DUL_isAlive env (trace w ++ release_part b1 j1 ++ [EvCheckAbort false])) in *.
      flatten_in Hs3. flatten_in E4. flatten_in Hs4.
      eapply polls_outcome_eq;
        [exact (polls_continue env w b1 j1 b3 j3 b4 j4 eq_refl Hs1 E2 eq_refl Hs3 E4 Hs4)|].
      f_equal. unfold polls_world, polls_kill, polls_trace, release_part, alive_part.
      clear Hs1 Hs3 E4 Hs4.
      destruct b1, b3, b4; cbn; rewrite <- ?app_assoc; cbn; rewrite <- ?app_assoc;
        cbn; rewrite <- ?app_assoc; reflexivity.
Qed.

(** An iteration of the main loop of an acceptor that is not yet killed is
    the sleep, the poll of the DIMSE provider with the dispatch of a message,
    and then the four polls. *)
Lemma acceptor_iteration_eq env kf n assoc w :
  mode (self w) = Some Acceptor ->
  _Kill (self w) = false ->
  main_loop env kf (S n) assoc w =
    rest_of_iteration env kf n assoc
      (extend w (EvSleep 1 ::
                 received_trace env assoc (SOPClassesAsSCP (self w))
                   (trace w ++ [EvSleep 1]))).
Proof.
  intros Hm Hk.
  rewrite (main_loop_acceptor_step env kf n assoc w Hm Hk).
  unfold bind at 1. rewrite receive_and_dispatch_eq.
  rewrite extend_extend. reflexivity.
Qed.

(** An iteration held in a [Kill] has observed what made it call [Kill]. *)
Lemma polls_outcome_waiting env w w' :
  polls_outcome env w (OutOfFuel, w') ->
  exists t j, w' = waiting w t j /\ existsb is_trigger t = true.
Proof.
  intros H. inversion H; subst.
  - exists [EvCheckRelease true; EvReleased], j. split; reflexivity.
  - exists (release_part (ACSE_CheckRelease env (trace w)) j1 ++
            [EvCheckAbort true; EvAborted]), j.
    split; [reflexivity|]. rewrite existsb_app. cbn. apply orb_true_r.
  - exists (release_part (ACSE_CheckRelease env (trace w)) j1 ++
            [EvCheckAbort false; EvIsAlive false]), j.
    split; [reflexivity|]. rewrite existsb_app. cbn. apply orb_true_r.
  - eexists (release_part (ACSE_CheckRelease env (trace w)) j1 ++
             EvCheckAbort false :: alive_part _ j3 ++ [EvIdleExpired true]), j.
    split; [reflexivity|]. rewrite existsb_app. cbn. rewrite existsb_app. cbn.
    rewrite !orb_true_r. reflexivity.
Qed.

(** The calls of polls that returned, and what they leave. *)
Lemma polls_outcome_returned env w ctl w' :
  polls_outcome env w (Returned ctl, w') ->
  exists t,
    trace w' = trace w ++ t
    /\ stop_follows_trigger t
    /\ (existsb is_trigger t = true -> _Kill (self w') = true)
    /\ (existsb is_trigger t = false -> self w' = self w /\ ctl = Continue).
Proof.
  intros H. inversion H; subst.
  - eexists. split; [reflexivity|]. split; [apply stop_follows_polls|].
    rewrite trigger_polls. unfold polls_world. cbn [self].
    split.
    + intros E. rewrite E. reflexivity.
    + unfold polls_kill. rewrite orb_true_r. discriminate.
  - eexists. split; [reflexivity|]. split; [apply stop_follows_polls|].
    rewrite trigger_polls. unfold polls_world. cbn [self].
    split; intros E; rewrite E; auto.
Qed.

(** While [DUL.Stop()] keeps answering [False], the polls return only when
    they observed nothing. *)
Lemma polls_never_stops env :
  (forall h, DUL_Stop env h = false) ->
  forall kf w,
    (exists w', polls env kf w = (OutOfFuel, w'))
    \/ polls env kf w =
         (Returned Continue,
          extend w [EvCheckRelease false; EvCheckAbort false;
                    EvIsAlive true; EvIdleExpired false]).
Proof.
  intros Hno kf w.
  remember (polls env kf w) as r eqn:Er.
  unfold polls, bind at 1, ask at 1 in Er.
  destruct (ACSE_CheckRelease env (trace w)).
  { left. unfold bind at 1 in Er. unfold bind at 1, emit at 1 in Er.
    rewrite (Kill_never_returns env Hno) in Er. eexists. exact Er. }
  unfold bind at 1, ret at 1 in Er. unfold bind at 1, ask at 1 in Er.
  cbn [self trace] in Er.
  destruct (ACSE_CheckAbort env (trace w ++ [EvCheckRelease false])).
  { left. unfold bind at 1, emit at 1 in Er. unfold bind at 1 in Er.
    rewrite (Kill_never_returns env Hno) in Er. eexists. exact Er. }
  unfold bind at 1, ask at 1 in Er. cbn [self trace] in Er.
  destruct (DUL_isAlive env _); cbn [negb] in Er.
  2: { left. unfold bind at 1 in Er.
       rewrite (Kill_never_returns env Hno) in Er. eexists. exact Er. }
  unfold bind at 1, ret at 1 in Er. unfold bind at 1, ask at 1 in Er.
  cbn [self trace] in Er.
  destruct (DUL_idle_timer_expired env _).
  { left. unfold bind at 1 in Er.
    rewrite (Kill_never_returns env Hno) in Er. eexists. exact Er. }
  right. rewrite Er. unfold bind, ret, extend. cbn [self trace].
  rewrite <- !app_assoc. reflexivity.
Qed.

(** Then the loop of an acceptor never ends. *)
Lemma main_loop_never_exits env assoc :
  (forall h, DUL_Stop env h = false) ->
  forall fuel kf w,
    mode (self w) = Some Acceptor ->
    _Kill (self w) = false ->
    fst (main_loop env kf fuel assoc w) = OutOfFuel.
Proof.
  intros Hno. induction fuel as [|n IH]; intros kf w Hm Hk.
  - cbn [main_loop]. unfold bind, get_self. rewrite Hk. reflexivity.
  - rewrite (acceptor_iteration_eq env kf n assoc w Hm Hk).
    unfold rest_of_iteration, bind.
    match goal with
    | |- context [polls env kf ?w1] =>
        destruct (polls_never_stops env Hno kf w1) as [[w' Hp]|Hp]; rewrite Hp
    end.
    + reflexivity.
    + apply IH; assumption.
Qed.


(** ** Dispatch and the table of negotiated contexts *)


(** A requestor's iteration is the sleep alone: it polls nothing. *)
Lemma main_loop_requestor_step env kf n assoc w :
  mode (self w) = Some Requestor ->
  _Kill (self w) = false ->
  main_loop env kf (S n) assoc w = main_loop env kf n assoc (extend w [EvSleep 1]).
Proof.
  intros Hm Hk. cbn [main_loop]. unfold bind at 1, get_self at 1.
  rewrite Hk, Hm. reflexivity.
Qed.

(** C2 (as the code has it). A message whose presentation-context id has no
    entry in the table of SCP classes is neither answered with a failure
    status nor dropped by the main loop: the loop still calls the [SCP]
    method of a new instance of the message's class, whose [pcid],
    [sopclass] and [transfersyntax] stay unassigned, makes no other call for
    it, and leaves the association as it was, so that the iteration goes on
    with its polls and the association stays open. *)
Theorem unmatched_context_still_dispatched :
  forall (env : Env) (kf n : nat) (assoc : option A_ASSOCIATE) (w : World)
         (msg : Message) (pcid : PCID),
    mode (self w) = Some Acceptor ->
    _Kill (self w) = false ->
    DIMSE_Receive env (trace w ++ [EvSleep 1]) = Some (msg, pcid) ->
    (forall x, In x (SOPClassesAsSCP (self w)) -> fst (fst x) <> pcid) ->
    let obj :=
      {| obj_class := UID2SOPClass env (AffectedSOPClassUID msg);
         obj_pcid := None; obj_sopclass := None; obj_transfersyntax := None;
         obj_maxpdulength :=
           Some (ACSE_MaxPDULength env
                   (trace w ++ [EvSleep 1; EvReceive (Some (msg, pcid))]));
         obj_DIMSE := true; obj_ACSE := true; obj_AE := true;
         obj_assoc := assoc |} in
    main_loop env kf (S n) assoc w =
      rest_of_iteration env kf n assoc
        {| self := self w;
           trace := trace w ++
                    [EvSleep 1; EvReceive (Some (msg, pcid)); EvSCP obj msg] |}.
Proof.
  intros env kf n assoc w msg pcid Hm Hk Hr Hno obj.
  rewrite (main_loop_acceptor_step env kf n assoc w Hm Hk).
  unfold bind at 1.
  rewrite (receive_and_dispatch_some env assoc (extend w [EvSleep 1]) msg pcid Hr).
  rewrite extend_extend. unfold extend. cbn [self trace app].
  unfold handler_object. rewrite match_context_last, (last_entry_none _ _ Hno).
  cbn [fst]. rewrite <- app_assoc. reflexivity.
Qed.

(** ** The requestor path *)

Lemma build_ext_fold contexts :
  forall acc,
    fold_left
      (fun ext (ii : UID * list TransferSyntax) =>
         ext ++ [{| SOPClassUID := fst ii; SCURole := 0; SCPRole := 1 |}])
      contexts acc
    = acc ++ map (fun ii => {| SOPClassUID := fst ii; SCURole := 0; SCPRole := 1 |})
               contexts.
Proof.
  induction contexts as [|c contexts IH]; intros acc; cbn.
  - rewrite app_nil_r. reflexivity.
  - rewrite IH, <- app_assoc. reflexivity.
Qed.

Lemma build_ext_map contexts :
  build_ext contexts =
    map (fun ii => {| SOPClassUID := fst ii; SCURole := 0; SCPRole := 1 |}) contexts.
Proof. unfold build_ext. apply build_ext_fold. Qed.

(** C7. When [ACSE.Request] answers that the association was not accepted,
    the requestor's [run] calls [on_association_rejected] with the response
    if there is one, sets [AssociationRefused] to [True], kills the DUL
    provider and returns: [AssociationEstablished] keeps the value [False]
    the constructor gave it, [on_association_established] is not called and
    the main loop is not entered. *)
Theorem run_requestor_rejected :
  forall (env : Env) (kf fuel : nat) (w : World) (response : option A_ASSOCIATE),
    mode (self w) = Some Requestor ->
    AssociationEstablished (self w) = false ->
    request_answer env w = (false, response) ->
    run env kf fuel w =
      (Returned tt,
       {| self := set_AssociationRefused (Some true) (self w);
          trace := request_history w ++
                   request_event env w ::
                   match response with
                   | Some r => [EvRejected r; EvDULKill]
                   | None => [EvDULKill]
                   end |})
    /\ AssociationRefused (self (snd (run env kf fuel w))) = Some true
    /\ AssociationEstablished (self (snd (run env kf fuel w))) = false.
Proof.
  intros env kf fuel w response Hm He Ha.
  assert (E : run env kf fuel w =
      (Returned tt,
       {| self := set_AssociationRefused (Some true) (self w);
          trace := request_history w ++
                   request_event env w ::
                   match response with
                   | Some r => [EvRejected r; EvDULKill]
                   | None => [EvDULKill]
                   end |})).
  { unfold run, bind at 1, emit at 1. unfold bind at 1, emit at 1.
    unfold bind at 1, get_self at 1. cbn [self trace]. rewrite Hm.
    unfold run_requestor, bind at 1, get_self at 1. cbn [self trace].
    unfold bind at 1, ask at 1. cbn [self trace].
    unfold request_event, request_answer, request_history in *.
    rewrite <- app_assoc. cbn [app].
    rewrite Ha. cbn [fst snd]. unfold reply_from_remote.
    destruct response as [r|]; unfold bind, emit, modify, ret; cbn [self trace];
      rewrite <- ?app_assoc; reflexivity. }
  rewrite E. cbn [snd self]. split; [reflexivity|]. split; [reflexivity|].
  cbn. exact He.
Qed.

(** ** A logic of calls

    [P] is closed under concatenation, so that [steps] goes through
    sequences and loops. *)

Section Steps.

Variable I : Association -> Prop.
Variable P : Trace -> Prop.
Variable R : Exn -> Prop.

Hypothesis P_nil : P [].
Hypothesis P_app : forall t1 t2, P t1 -> P t2 -> P (t1 ++ t2).

Lemma steps_ret {A} (a : A) : steps I P R (ret a).
Proof.
  intros w Hw. exists []. cbn. rewrite app_nil_r.
  repeat split; auto. discriminate.
Qed.

Lemma steps_out_of_fuel {A} : steps I P R (@out_of_fuel A).
Proof.
  intros w Hw. exists []. cbn. rewrite app_nil_r.
  repeat split; auto. discriminate.
Qed.

Lemma steps_raise {A} e : R e -> steps I P R (@raise A e).
Proof.
  intros He w Hw. exists []. cbn. rewrite app_nil_r.
  repeat split; auto. intros e' E. inversion E. subst. exact He.
Qed.

Lemma steps_read {X} (o : Trace -> X) : steps I P R (read o).
Proof.
  intros w Hw. exists []. cbn. rewrite app_nil_r.
  repeat split; auto. discriminate.
Qed.

Lemma steps_modify f : (forall s, I s -> I (f s)) -> steps I P R (modify f).
Proof.
  intros Hf w Hw. exists []. cbn. rewrite app_nil_r.
  repeat split; auto. discriminate.
Qed.

Lemma steps_emit e : P [e] -> steps I P R (emit e).
Proof.
  intros He w Hw. exists [e]. cbn. repeat split; auto. discriminate.
Qed.

Lemma steps_ask {X} (o : Trace -> X) (ev : X -> Event) :
  (forall x, P [ev x]) -> steps I P R (ask o ev).
Proof.
  intros He w Hw. exists [ev (o (trace w))]. cbn. repeat split; auto. discriminate.
Qed.

Lemma steps_bind {A B} (m : M A) (f : A -> M B) :
  steps I P R m -> (forall a, steps I P R (f a)) -> steps I P R (bind m f).
Proof.
  intros Hm Hf w Hw. unfold bind.
  destruct (Hm w Hw) as (t1 & E1 & P1 & I1 & R1).
  destruct (m w) as [[a| e |] w1]; cbn [fst snd] in *.
  - destruct (Hf a w1 I1) as (t2 & E2 & P2 & I2 & R2).
    exists (t1 ++ t2). rewrite E2, E1, app_assoc.
    split; [reflexivity|]. split; [apply P_app; assumption|].
    split; [exact I2 | exact R2].
  - exists t1. cbn [fst snd].
    split; [exact E1|]. split; [exact P1|]. split; [exact I1 |].
    intros e' E. inversion E. subst. apply R1. reflexivity.
  - exists t1. cbn [fst snd].
    split; [exact E1|]. split; [exact P1|]. split; [exact I1 | discriminate].
Qed.

(** Reading [self] gives a state that satisfies [I]. *)
Lemma steps_get_self {B} (f : Association -> M B) :
  (forall s, I s -> steps I P R (f s)) -> steps I P R (bind get_self f).
Proof.
  intros Hf w Hw. unfold bind, get_self. apply (Hf (self w) Hw w Hw).
Qed.

(** A computation started after some calls [pre] that satisfy [P]. *)
Lemma steps_after {A} (m : M A) (pre : Trace) :
  steps I P R m -> P pre ->
  forall w, I (self w) ->
    exists t, trace (snd (m (extend w pre))) = trace w ++ t /\ P t
              /\ I (self (snd (m (extend w pre))))
              /\ forall e, fst (m (extend w pre)) = Raised e -> R e.
Proof.
  intros Hm Hpre w Hw.
  destruct (Hm (extend w pre) Hw) as (t & E & Pt & It & Rt).
  exists (pre ++ t). rewrite E. cbn. rewrite app_assoc. repeat split; auto.
Qed.

Variable env : Env.

Hypothesis P_plain : forall e, plain e = true -> P [e].
Hypothesis P_released : P [EvCheckRelease true; EvReleased].
Hypothesis P_aborted : P [EvCheckAbort true; EvAborted].
Hypothesis I_Kill : forall s, I s -> I (set_Kill true s).
Hypothesis R_mode : forall s, I s -> mode s = None -> R (AttributeError "mode").

Lemma steps_Kill_wait fuel : steps I P R (Kill_wait env fuel).
Proof.
  induction fuel as [|fuel IH]; cbn [Kill_wait].
  - apply steps_out_of_fuel.
  - apply steps_bind.
    + apply steps_ask. intros b. apply P_plain. reflexivity.
    + intros [|]; [apply steps_ret|].
      apply steps_bind; [apply steps_emit, P_plain; reflexivity | intros _; exact IH].
Qed.

Lemma steps_Kill fuel : steps I P R (Kill env fuel).
Proof.
  unfold Kill. apply steps_bind; [apply steps_modify, I_Kill|].
  intros _. apply steps_Kill_wait.
Qed.

Lemma steps_receive_and_dispatch assoc : steps I P R (receive_and_dispatch env assoc).
Proof.
  intros w Hw. rewrite receive_and_dispatch_eq. cbn [fst snd extend self trace].
  eexists. split; [reflexivity|]. repeat split; auto; [|discriminate].
  unfold received_trace. destruct (DIMSE_Receive env (trace w)) as [[msg pcid]|].
  - apply (P_app [_] [_]); apply P_plain; reflexivity.
  - apply P_plain. reflexivity.
Qed.

Lemma polls_unfold kf w :
  polls env kf w =
    ((if ACSE_CheckRelease env (trace w) then Kill env kf else ret tt) ;;;
     abort_check env kf)
      (extend w (EvCheckRelease (ACSE_CheckRelease env (trace w)) ::
                 if ACSE_CheckRelease env (trace w) then [EvReleased] else [])).
Proof.
  unfold polls, abort_check, alive_and_idle, bind at 1, ask at 1, extend.
  destruct (ACSE_CheckRelease env (trace w)); cbn [self trace].
  - unfold bind at 1. unfold bind at 1, emit at 1. cbn [self trace].
    rewrite <- app_assoc. reflexivity.
  - reflexivity.
Qed.

Lemma abort_check_unfold kf w :
  abort_check env kf w =
    (if ACSE_CheckAbort env (trace w) then Kill env kf ;;; ret Return
     else alive_and_idle env kf)
      (extend w (EvCheckAbort (ACSE_CheckAbort env (trace w)) ::
                 if ACSE_CheckAbort env (trace w) then [EvAborted] else [])).
Proof.
  unfold abort_check, bind at 1, ask at 1, extend.
  destruct (ACSE_CheckAbort env (trace w)); cbn [self trace].
  - unfold bind at 1, emit at 1. cbn [self trace].
    rewrite <- app_assoc. reflexivity.
  - reflexivity.
Qed.

Lemma steps_alive_and_idle kf : steps I P R (alive_and_idle env kf).
Proof.
  unfold alive_and_idle.
  apply steps_bind; [apply steps_ask; intros b; apply P_plain; destruct b; reflexivity|].
  intros alive. apply steps_bind.
  { destruct (negb alive); [apply steps_Kill | apply steps_ret]. }
  intros _.
  apply steps_bind; [apply steps_ask; intros b; apply P_plain; destruct b; reflexivity|].
  intros expired. apply steps_bind.
  { destruct expired; [apply steps_Kill | apply steps_ret]. }
  intros _. apply steps_ret.
Qed.

Lemma steps_abort_check kf : steps I P R (abort_check env kf).
Proof.
  intros w Hw. rewrite abort_check_unfold.
  apply steps_after; [| |exact Hw].
  - destruct (ACSE_CheckAbort env (trace w)).
    + apply steps_bind; [apply steps_Kill | intros _; apply steps_ret].
    + apply steps_alive_and_idle.
  - destruct (ACSE_CheckAbort env (trace w)); [exact P_aborted|].
    apply P_plain. reflexivity.
Qed.

Lemma steps_polls kf : steps I P R (polls env kf).
Proof.
  intros w Hw. rewrite polls_unfold.
  apply steps_after; [| |exact Hw].
  - apply steps_bind; [|intros _; apply steps_abort_check].
    destruct (ACSE_CheckRelease env (trace w)); [apply steps_Kill | apply steps_ret].
  - destruct (ACSE_CheckRelease env (trace w)); [exact P_released|].
    apply P_plain. reflexivity.
Qed.

Lemma steps_main_loop kf fuel assoc : steps I P R (main_loop env kf fuel assoc).
Proof.
  induction fuel as [|fuel IH]; cbn [main_loop]; apply steps_get_self; intros s Hs.
  - destruct (_Kill s); [apply steps_ret | apply steps_out_of_fuel].
  - destruct (_Kill s); [apply steps_ret|].
    apply steps_bind; [apply steps_emit, P_plain; reflexivity|]. intros _.
    destruct (mode s) as [[|]|] eqn:Em.
    + apply steps_bind.
      * unfold acceptor_iteration. apply steps_bind;
          [apply steps_receive_and_dispatch | intros _; apply steps_polls].
      * intros [|]; [exact IH | apply steps_ret].
    + exact IH.
    + apply steps_raise. exact (R_mode s Hs Em).
Qed.

End Steps.

(** ** The acceptor path *)

Lemma run_acceptor_unfold env kf fuel w :
  mode (self w) = Some Acceptor ->
  run env kf fuel w =
    match accept_answer env w with
    | None => Kill env kf (extend w [EvACSEServiceProvider; EvDIMSEServiceProvider;
                                     EvSleep 100; accept_event env w])
    | Some a => main_loop env kf fuel (Some a) (accepted_world env w a)
    end.
Proof.
  intros Hm.
  unfold run, bind at 1, emit at 1. unfold bind at 1, emit at 1.
  unfold bind at 1, get_self at 1. cbn [self trace]. rewrite Hm.
  unfold run_acceptor, bind at 1, emit at 1. unfold bind at 1, get_self at 1.
  cbn [self trace].
  unfold accepted_world, accept_event, accept_answer, accept_history, extend.
  destruct (limit_check (AE (self w))) as [result diag]. cbn [fst snd].
  unfold bind at 1, ask at 1. cbn [self trace].
  rewrite <- !app_assoc. cbn [app].
  destruct (ACSE_Accept env _ _ _ result diag) as [a|].
  - unfold bind at 1, emit at 1. unfold bind at 1, read at 1.
    unfold bind at 1, modify at 1. unfold established.
    unfold bind at 1, modify at 1. unfold bind at 1, emit at 1.
    cbn [self trace]. rewrite <- !app_assoc. cbn [app]. reflexivity.
  - reflexivity.
Qed.

Lemma limit_check_over ae :
  MaxNumberOfAssociations ae < Z.of_nat (List.length (Associations ae)) ->
  limit_check ae = (Some A_ASSOCIATE_Result_RejectedTransient,
                    Some A_ASSOCIATE_Diag_LocalLimitExceeded).
Proof.
  intros H. unfold limit_check.
  destruct (Z.gtb_spec (Z.of_nat (List.length (Associations ae)))
              (MaxNumberOfAssociations ae)); [reflexivity | lia].
Qed.

(** With no more associations in the list than the maximum, [run] leaves
    [result] and [diag] unset: the test is a strict comparison. *)
Lemma limit_check_within ae :
  Z.of_nat (List.length (Associations ae)) <= MaxNumberOfAssociations ae ->
  limit_check ae = (None, None).
Proof.
  intros H. unfold limit_check.
  destruct (Z.gtb_spec (Z.of_nat (List.length (Associations ae)))
              (MaxNumberOfAssociations ae)); [lia | reflexivity].
Qed.

Lemma stop_polls_kill j : forallb is_stop_poll (kill_chunk j) = true.
Proof. induction j; cbn; auto. Qed.

Lemma stop_polls_wait j : forallb is_stop_poll (wait_chunk j) = true.
Proof. induction j; cbn; auto. Qed.

(** ** Calls only accumulate *)

Lemma grows_bind {A B} (m : M A) (f : A -> M B) :
  grows m -> (forall a, grows (f a)) -> grows (bind m f).
Proof. apply steps_bind. unfold any_trace. auto. Qed.

Lemma grows_emit e : grows (emit e).
Proof. apply steps_emit. exact I. Qed.

Lemma grows_ret {A} (a : A) : grows (ret a).
Proof. apply steps_ret. exact I. Qed.

Lemma grows_modify f : grows (modify f).
Proof. apply steps_modify; unfold any_state, any_trace; auto. Qed.

Lemma grows_read {X} (o : Trace -> X) : grows (read o).
Proof. apply steps_read. exact I. Qed.

Lemma grows_raise {A} e : grows (@raise A e).
Proof. apply steps_raise; exact I. Qed.

Lemma grows_main_loop env kf fuel assoc : grows (main_loop env kf fuel assoc).
Proof. apply steps_main_loop; unfold any_state, any_trace, any_exn; auto. Qed.

Lemma grows_established env kf fuel assoc : grows (established env kf fuel assoc).
Proof.
  unfold established.
  apply grows_bind; [apply grows_modify|]. intros _.
  apply grows_bind; [apply grows_emit|]. intros _.
  apply grows_main_loop.
Qed.

Lemma grows_reply_from_remote env kf fuel s ans response :
  grows (reply_from_remote env kf fuel s ans response).
Proof.
  unfold reply_from_remote.
  destruct ans.
  - apply grows_bind.
    { destruct (has_OnAssociateResponse (AE s)); [apply grows_emit | apply grows_ret]. }
    intros _. destruct response as [r|]; [|apply grows_raise].
    apply grows_bind.
    { destruct (String.eqb (Result r) "Accepted"); [apply grows_emit | apply grows_ret]. }
    intros _. apply grows_bind; [apply grows_read|]. intros contexts.
    apply grows_bind; [apply grows_modify|]. intros _. apply grows_established.
  - apply grows_bind.
    { destruct response; [apply grows_emit | apply grows_ret]. }
    intros _. apply grows_bind; [apply grows_modify|]. intros _. apply grows_emit.
Qed.

Lemma run_requestor_unfold env kf fuel w :
  mode (self w) = Some Requestor ->
  run env kf fuel w =
    reply_from_remote env kf fuel (self w)
      (fst (request_answer env w)) (snd (request_answer env w))
      (extend w [EvACSEServiceProvider; EvDIMSEServiceProvider; request_event env w]).
Proof.
  intros Hm.
  unfold run, bind at 1, emit at 1. unfold bind at 1, emit at 1.
  unfold bind at 1, get_self at 1. cbn [self trace]. rewrite Hm.
  unfold run_requestor, bind at 1, get_self at 1. cbn [self trace].
  unfold bind at 1, ask at 1. cbn [self trace].
  unfold request_event, request_answer, request_history, extend.
  rewrite <- !app_assoc. cbn [app].
  destruct (ACSE_Request env _ _ _ _ _ _) as [ans response]. reflexivity.
Qed.

(** C6 (as the code has it). The requestor's [run] builds one SCP/SCU role
    selection item for each entry of the entity's
    [AcceptablePresentationContexts] - carrying that entry's SOP class UID,
    SCU role 0 and SCP role 1 - and passes these items as [userspdu],
    together with the entity's [PresentationContextDefinitionList] as the
    proposed contexts, to [ACSE.Request]; that call is the first the worker
    makes after it has built its providers. *)
Theorem run_requestor_role_items :
  forall (env : Env) (kf fuel : nat) (w : World),
    mode (self w) = Some Requestor ->
    exists (ans : bool) (response : option A_ASSOCIATE) (t : Trace),
      trace (snd (run env kf fuel w)) =
        trace w ++
        [EvACSEServiceProvider; EvDIMSEServiceProvider;
         EvRequest (LocalAE (AE (self w))) (RemoteAE (self w))
           (MaxPDULength (AE (self w)))
           (PresentationContextDefinitionList (AE (self w)))
           (map (fun ii => {| SOPClassUID := fst ii; SCURole := 0; SCPRole := 1 |})
              (AcceptablePresentationContexts (AE (self w))))
           ans response] ++ t.
Proof.
  intros env kf fuel w Hm.
  rewrite (run_requestor_unfold env kf fuel w Hm).
  exists (fst (request_answer env w)), (snd (request_answer env w)).
  destruct (grows_reply_from_remote env kf fuel (self w)
              (fst (request_answer env w)) (snd (request_answer env w))
              (extend w [EvACSEServiceProvider; EvDIMSEServiceProvider;
                         request_event env w]) I)
    as (t & Et & _).
  exists t. rewrite Et. unfold extend, request_event. cbn [trace self].
  rewrite build_ext_map, <- app_assoc. reflexivity.
Qed.

(** ** Lifecycle callbacks *)

Lemma reported_next_app e rest t :
  reported_next e rest -> reported_next e (rest ++ t).
Proof.
  destruct e; cbn; auto.
  - destruct assoc; auto. intros [rest' E]. subst. eexists. reflexivity.
  - destruct answer; auto. intros [rest' E]. subst. eexists. reflexivity.
  - destruct answer; auto. intros [rest' E]. subst. eexists. reflexivity.
Qed.

Lemma lifecycle_app t1 t2 :
  lifecycle_reported t1 -> lifecycle_reported t2 -> lifecycle_reported (t1 ++ t2).
Proof.
  induction t1 as [|e t1 IH]; cbn; intros H1 H2; [exact H2|].
  destruct H1 as [Ha Hb]. split; [apply reported_next_app; exact Ha | auto].
Qed.

Lemma lifecycle_plain e : plain e = true -> lifecycle_reported [e].
Proof.
  destruct e; cbn; auto.
  - destruct assoc; [discriminate | auto].
  - destruct answer; [discriminate | auto].
  - destruct answer; [discriminate | auto].
Qed.

Lemma acceptor_main_loop env kf fuel assoc :
  steps is_acceptor lifecycle_reported no_exn (main_loop env kf fuel assoc).
Proof.
  apply steps_main_loop.
  - exact I.
  - exact lifecycle_app.
  - exact lifecycle_plain.
  - cbn. split; [eexists; reflexivity | auto].
  - cbn. split; [eexists; reflexivity | auto].
  - unfold is_acceptor. auto.
  - unfold is_acceptor. intros s Hs Hn. rewrite Hs in Hn. discriminate.
Qed.

Lemma acceptor_Kill env fuel :
  steps is_acceptor lifecycle_reported no_exn (Kill env fuel).
Proof.
  apply steps_Kill.
  - exact I.
  - exact lifecycle_app.
  - exact lifecycle_plain.
  - unfold is_acceptor. auto.
Qed.

(** C8. On the acceptor path the worker reports each lifecycle outcome by a
    callback of the application entity and raises nothing.  The worker calls
    [ACSE.Accept]; when it answers with an association [a] the worker calls
    [on_association_accepted(a)] at once, builds the table of SCP classes,
    sets [AssociationEstablished], calls [on_association_established] and
    enters the main loop.  In every iteration of that loop the polls are
    those of [polls_outcome]: a release request that [CheckRelease] reports
    is followed at once by [on_association_released], an abort that
    [CheckAbort] reports by [on_association_aborted].  In the whole run every
    such answer is followed by its callback, and no exception leaves [run]. *)
Theorem acceptor_outcomes_by_callback :
  forall (env : Env) (kf fuel : nat) (w : World),
    mode (self w) = Some Acceptor ->
    (exists t : Trace,
        trace (snd (run env kf fuel w)) = trace w ++ t
        /\ lifecycle_reported t
        /\ forall e, fst (run env kf fuel w) <> Raised e)
    /\ (exists t : Trace,
          trace (snd (run env kf fuel w)) = accept_history w ++ accept_event env w :: t)
    /\ (forall a, accept_answer env w = Some a ->
          run env kf fuel w = main_loop env kf fuel (Some a) (accepted_world env w a)
          /\ mode (self (accepted_world env w a)) = Some Acceptor
          /\ AssociationEstablished (self (accepted_world env w a)) = true
          /\ exists t : Trace,
               trace (snd (run env kf fuel w)) =
                 accept_history w ++
                 EvAccept (ClientSocket (self w))
                   (AcceptablePresentationContexts (AE (self w)))
                   (fst (limit_check (AE (self w)))) (snd (limit_check (AE (self w))))
                   (Some a)
                 :: EvAccepted a :: EvEstablished :: t)
    /\ (forall n assoc w0,
          mode (self w0) = Some Acceptor ->
          _Kill (self w0) = false ->
          let w1 := extend w0 (EvSleep 1 ::
                               received_trace env assoc (SOPClassesAsSCP (self w0))
                                 (trace w0 ++ [EvSleep 1])) in
          main_loop env kf (S n) assoc w0 = rest_of_iteration env kf n assoc w1
          /\ polls_outcome env w1 (polls env kf w1)).
Proof.
  intros env kf fuel w Hm.
  split; [|split; [|split]].
  - rewrite (run_acceptor_unfold env kf fuel w Hm).
    destruct (accept_answer env w) as [a|] eqn:Ea.
    + destruct (acceptor_main_loop env kf fuel (Some a) (accepted_world env w a) Hm)
        as (t & Et & Pt & _ & Rt).
      exists ([EvACSEServiceProvider; EvDIMSEServiceProvider; EvSleep 100;
               accept_event env w; EvAccepted a; EvEstablished] ++ t).
      split; [|split].
      * rewrite Et. unfold accepted_world, accept_history. cbn [trace].
        rewrite <- !app_assoc. reflexivity.
      * apply lifecycle_app; [|exact Pt].
        unfold accept_event. rewrite Ea. cbn.
        repeat split; auto. eexists. reflexivity.
      * intros e He. exact (Rt e He).
    + destruct (steps_after is_acceptor lifecycle_reported no_exn lifecycle_app
                  (Kill env kf)
                  [EvACSEServiceProvider; EvDIMSEServiceProvider; EvSleep 100;
                   accept_event env w]
                  (acceptor_Kill env kf)) with (w := w)
        as (t & Et & Pt & _ & Rt).
      * unfold accept_event. rewrite Ea. cbn. auto.
      * exact Hm.
      * exists t. split; [exact Et|]. split; [exact Pt|].
        intros e He. exact (Rt e He).
  - rewrite (run_acceptor_unfold env kf fuel w Hm).
    destruct (accept_answer env w) as [a|] eqn:Ea.
    + destruct (grows_main_loop env kf fuel (Some a) (accepted_world env w a) I)
        as (t & Et & _).
      exists (EvAccepted a :: EvEstablished :: t).
      rewrite Et. unfold accepted_world. cbn [trace].
      rewrite <- app_assoc. reflexivity.
    + destruct (Kill_cases env kf
                  (extend w [EvACSEServiceProvider; EvDIMSEServiceProvider;
                             EvSleep 100; accept_event env w]))
        as [[j Hj]|[j Hj]]; rewrite Hj; eexists;
        unfold killed, extend, accept_history; cbn [snd trace];
        rewrite <- !app_assoc; reflexivity.
  - intros a Ea.
    rewrite (run_acceptor_unfold env kf fuel w Hm), Ea.
    split; [reflexivity|]. split; [exact Hm|]. split; [reflexivity|].
    destruct (grows_main_loop env kf fuel (Some a) (accepted_world env w a) I)
      as (t & Et & _).
    exists t. rewrite Et. unfold accepted_world, accept_event. cbn [trace].
    rewrite Ea. rewrite <- app_assoc. reflexivity.
  - intros n assoc w0 Hm0 Hk0 w1. split.
    + apply acceptor_iteration_eq; assumption.
    + apply polls_outcome_holds.
Qed.


(** * Concrete runs *)

Lemma example_env_stops accepted received aborted :
  Stop_eventually (example_env accepted received aborted).
Proof. intros h. exists O. reflexivity. Qed.

Example init_acceptor :
  init (example_ae [1%nat]) (Some 7%nat) None =
    (Returned (new_acceptor [1%nat]),
     [EvDULServiceProvider (Some 7%nat) 30; EvThreadInit; EvThreadStart true]).
Proof. reflexivity. Qed.

Example init_requestor :
  init scu_only_ae None (Some peer) =
    (Returned (new_requestor scu_only_ae),
     [EvDULServiceProvider None 30; EvThreadInit; EvThreadStart true]).
Proof. reflexivity. Qed.

(** An accepted association that receives a C-ECHO on context 1 and is then
    aborted by the peer. *)
Example run_echo_then_abort :
  run (example_env (Some example_assoc) (Some (echo_on 1)) true) 1 1
      (start (new_acceptor [1%nat]))
  = (Returned tt,
     {| self :=
          set_Kill true
            (set_AssociationEstablished true
               (set_SOPClassesAsSCP [(1, "VerificationSOPClass", implicit_vr)]
                  (new_acceptor [1%nat])));
        trace :=
          [EvACSEServiceProvider; EvDIMSEServiceProvider; EvSleep 100;
           EvAccept (Some 7%nat) [(verification_uid, [implicit_vr])] None None
             (Some example_assoc);
           EvAccepted example_assoc; EvEstablished; EvSleep 1;
           EvReceive (Some (echo_on 1));
           EvSCP {| obj_class := "VerificationSOPClass"; obj_pcid := Some 1;
                    obj_sopclass := Some "VerificationSOPClass";
                    obj_transfersyntax := Some implicit_vr;
                    obj_maxpdulength := Some 16382;
                    obj_DIMSE := true; obj_ACSE := true; obj_AE := true;
                    obj_assoc := Some example_assoc |}
                 (fst (echo_on 1));
           EvCheckRelease false; EvCheckAbort true; EvAborted; EvStop true] |}).
Proof. vm_compute. reflexivity. Qed.

(** ** Instances of the theorems *)


Lemma unmatched_context_still_dispatched_witness :
  main_loop (example_env (Some example_assoc) (Some (echo_on 3)) false) 1 1
    (Some example_assoc) (start established_acceptor)
  = rest_of_iteration (example_env (Some example_assoc) (Some (echo_on 3)) false) 1 0
      (Some example_assoc)
      {| self := established_acceptor;
         trace :=
           [EvSleep 1; EvReceive (Some (echo_on 3));
            EvSCP {| obj_class := "VerificationSOPClass"; obj_pcid := None;
                     obj_sopclass := None; obj_transfersyntax := None;
                     obj_maxpdulength := Some 16382;
                     obj_DIMSE := true; obj_ACSE := true; obj_AE := true;
                     obj_assoc := Some example_assoc |}
                  (fst (echo_on 3))] |}.
Proof.
  apply (unmatched_context_still_dispatched
           (example_env (Some example_assoc) (Some (echo_on 3)) false) 1 0
           (Some example_assoc) (start established_acceptor) (fst (echo_on 3)) 3
           eq_refl eq_refl eq_refl).
  intros x [E|[]]. subst x. cbn. discriminate.
Defined.




Lemma run_requestor_role_items_witness :
  exists (ans : bool) (response : option A_ASSOCIATE) (t : Trace),
    trace (snd (run quiet_env 1 1 (start (new_requestor (example_ae []))))) =
      [] ++
      [EvACSEServiceProvider; EvDIMSEServiceProvider;
       EvRequest (LocalAE (example_ae [])) (Some peer) 16382
         [(1, verification_uid, [implicit_vr])]
         [{| SOPClassUID := verification_uid; SCURole := 0; SCPRole := 1 |}]
         ans response] ++ t.
Proof.
  exact (run_requestor_role_items quiet_env 1 1
           (start (new_requestor (example_ae []))) eq_refl).
Defined.

Lemma run_requestor_rejected_witness :
  run quiet_env 1 1 (start (new_requestor (example_ae []))) =
    (Returned tt,
     {| self := set_AssociationRefused (Some true) (new_requestor (example_ae []));
        trace := [EvACSEServiceProvider; EvDIMSEServiceProvider;
                  EvRequest (LocalAE (example_ae [])) (Some peer) 16382
                    [(1, verification_uid, [implicit_vr])]
                    [{| SOPClassUID := verification_uid; SCURole := 0; SCPRole := 1 |}]
                    false None;
                  EvDULKill] |}).
Proof.
  exact (proj1 (run_requestor_rejected quiet_env 1 1
                  (start (new_requestor (example_ae []))) None
                  eq_refl eq_refl eq_refl)).
Defined.

(** An accepted association that receives a C-ECHO and is then aborted by
    the peer: the acceptance, the establishment and the abort are reported
    by their callbacks. *)
Lemma acceptor_outcomes_by_callback_witness :
  (exists t : Trace,
      trace (snd (run (example_env (Some example_assoc) (Some (echo_on 1)) true) 1 1
                    (start (new_acceptor [1%nat])))) = [] ++ t
      /\ lifecycle_reported t
      /\ forall e,
           fst (run (example_env (Some example_assoc) (Some (echo_on 1)) true) 1 1
                  (start (new_acceptor [1%nat]))) <> Raised e)
  /\ exists t : Trace,
       trace (snd (run (example_env (Some example_assoc) (Some (echo_on 1)) true) 1 1
                     (start (new_acceptor [1%nat])))) =
         [EvACSEServiceProvider; EvDIMSEServiceProvider; EvSleep 100] ++
         EvAccept (Some 7%nat) [(verification_uid, [implicit_vr])] None None
           (Some example_assoc)
         :: EvAccepted example_assoc :: EvEstablished :: t.
Proof.
  split.
  - exact (proj1 (acceptor_outcomes_by_callback
                    (example_env (Some example_assoc) (Some (echo_on 1)) true) 1 1
                    (start (new_acceptor [1%nat])) eq_refl)).
  - exact (proj2 (proj2 (proj2
             (proj1 (proj2 (proj2
                (acceptor_outcomes_by_callback
                   (example_env (Some example_assoc) (Some (echo_on 1)) true) 1 1
                   (start (new_acceptor [1%nat])) eq_refl)))
                example_assoc eq_refl)))).
Defined.

Lemma SCU_supported_or_raises_witness :
  SCU quiet_env {| ds_SOPClassUID := ct_storage_uid; ds_SOPInstanceUID := "1.2.3" |} 1
      (start negotiated_requestor)
  = (Raised (Exception "SOP Class 1.2.840.10008.5.1.4.1.1.2 not supported as SCU"),
     start negotiated_requestor)
  /\
  SCU quiet_env {| ds_SOPClassUID := verification_uid; ds_SOPInstanceUID := "1.2.3" |} 1
      (start negotiated_requestor)
  = (Returned 0,
     {| self := negotiated_requestor;
        trace :=
          [EvSCU {| obj_class := "VerificationSOPClass"; obj_pcid := Some 1;
                    obj_sopclass := Some "VerificationSOPClass";
                    obj_transfersyntax := Some implicit_vr;
                    obj_maxpdulength := Some 16382;
                    obj_DIMSE := true; obj_ACSE := false; obj_AE := true;
                    obj_assoc := None |}
             {| ds_SOPClassUID := verification_uid; ds_SOPInstanceUID := "1.2.3" |}
             1 0] |}).
Proof.
  split.
  - apply (proj1 (SCU_supported_or_raises quiet_env
                    {| ds_SOPClassUID := ct_storage_uid; ds_SOPInstanceUID := "1.2.3" |}
                    1 (start negotiated_requestor))).
    intros x [E|[]]. subst x. cbn. discriminate.
  - apply (proj2 (SCU_supported_or_raises quiet_env
                    {| ds_SOPClassUID := verification_uid; ds_SOPInstanceUID := "1.2.3" |}
                    1 (start negotiated_requestor)) [] 1 implicit_vr []).
    + reflexivity.
    + intros y [].
Defined.

(** ** Where the code departs from the specification *)

(** C2, as stated, fails: the message on the unknown context is received,
    no entry of the table has its context id, and the worker sends no status
    to the peer; it calls the [SCP] method of an instance whose context was
    never assigned. *)
Lemma unmatched_context_no_failure_status :
  In (EvReceive (Some (echo_on 3))) (trace (snd unmatched_run))
  /\ (forall x, In x (SOPClassesAsSCP (self (snd unmatched_run))) ->
                fst (fst x) <> 3)
  /\ In (EvSCP {| obj_class := "VerificationSOPClass"; obj_pcid := None;
                  obj_sopclass := None; obj_transfersyntax := None;
                  obj_maxpdulength := Some 16382;
                  obj_DIMSE := true; obj_ACSE := true; obj_AE := true;
                  obj_assoc := Some example_assoc |}
               (fst (echo_on 3)))
        (trace (snd unmatched_run))
  /\ ~ status_sent (trace (snd unmatched_run)).
Proof.
  vm_compute. repeat split.
  - do 7 right. left. reflexivity.
  - intros x [E|[]]. subst x. discriminate.
  - do 8 right. left. reflexivity.
  - intros (status & pcid & H).
    repeat (destruct H as [H|H]; [discriminate H|]). exact H.
Qed.



(** C6, as stated, fails: one context is proposed and no item is passed. *)
Lemma role_items_not_per_proposed_context :
  ~ one_item_per_proposed_context (trace (snd scu_only_run)).
Proof.
  intros H.
  assert (Hin : In (EvRequest (LocalAE scu_only_ae) (Some peer) 16382
                      [(1, verification_uid, [implicit_vr])] [] false None)
                   (trace (snd scu_only_run))).
  { vm_compute. do 2 right. left. reflexivity. }
  apply H in Hin. discriminate Hin.
Qed.


(** * Further properties *)

(** ** Kill and Release *)


(** X2. When [DUL.Stop()] never answers [True], [Kill] never returns: after
    any number of polls it is still polling, one sleep of a millisecond after
    each failed poll, with the kill flag set from the start.  [Abort] and
    [Release], which end in [Kill], do not return either. *)
Theorem Kill_waits_forever :
  forall (env : Env),
    (forall h, DUL_Stop env h = false) ->
    forall (fuel : nat) (reason : Z) (w : World),
      Kill env fuel w =
        (OutOfFuel,
         {| self := set_Kill true (self w); trace := trace w ++ wait_chunk fuel |})
      /\ fst (Abort env fuel reason w) = OutOfFuel
      /\ fst (Release env fuel reason w) = OutOfFuel.
Proof.
  intros env Hno fuel reason w.
  assert (HK : forall w0, Kill env fuel w0 =
            (OutOfFuel,
             {| self := set_Kill true (self w0); trace := trace w0 ++ wait_chunk fuel |})).
  { intros w0. unfold Kill, bind, modify.
    rewrite (Kill_wait_never_stops env Hno). reflexivity. }
  split; [apply HK|]. split.
  - unfold Abort, bind, emit. rewrite HK. reflexivity.
  - unfold Release, bind, emit. rewrite HK. reflexivity.
Qed.

(** ** The acceptor's negotiation *)

(** X3. The acceptor pre-sets the rejection exactly when the entity's list of
    associations is longer than [MaxNumberOfAssociations]: then [Accept] is
    called with rejected-transient and local-limit-exceeded, and with a list
    of at most that length it is called with neither result nor diagnostic.
    In both cases it is the first call after the providers are built and the
    sleep of 100 ms. *)
Theorem accept_limit_threshold :
  forall (env : Env) (kf fuel : nat) (w : World),
    mode (self w) = Some Acceptor ->
    let over :=
      MaxNumberOfAssociations (AE (self w)) <?
      Z.of_nat (List.length (Associations (AE (self w)))) in
    exists (answer : option A_ASSOCIATE) (t : Trace),
      trace (snd (run env kf fuel w)) =
        trace w ++
        [EvACSEServiceProvider; EvDIMSEServiceProvider; EvSleep 100;
         EvAccept (ClientSocket (self w))
           (AcceptablePresentationContexts (AE (self w)))
           (if over then Some A_ASSOCIATE_Result_RejectedTransient else None)
           (if over then Some A_ASSOCIATE_Diag_LocalLimitExceeded else None)
           answer] ++ t.
Proof.
  intros env kf fuel w Hm over.
  assert (Hl : limit_check (AE (self w)) =
               (if over then Some A_ASSOCIATE_Result_RejectedTransient else None,
                if over then Some A_ASSOCIATE_Diag_LocalLimitExceeded else None)).
  { unfold over. destruct (Z.ltb_spec (MaxNumberOfAssociations (AE (self w)))
                             (Z.of_nat (List.length (Associations (AE (self w)))))).
    - apply limit_check_over. assumption.
    - apply limit_check_within. assumption. }
  rewrite (run_acceptor_unfold env kf fuel w Hm).
  exists (accept_answer env w).
  assert (Hev : accept_event env w =
                EvAccept (ClientSocket (self w))
                  (AcceptablePresentationContexts (AE (self w)))
                  (if over then Some A_ASSOCIATE_Result_RejectedTransient else None)
                  (if over then Some A_ASSOCIATE_Diag_LocalLimitExceeded else None)
                  (accept_answer env w)).
  { unfold accept_event. rewrite Hl. reflexivity. }
  destruct (accept_answer env w) as [a|] eqn:Ea.
  - destruct (grows_main_loop env kf fuel (Some a) (accepted_world env w a) I)
      as (t & Et & _).
    exists (EvAccepted a :: EvEstablished :: t).
    rewrite Et. unfold accepted_world, accept_history. cbn [trace].
    rewrite Hev, <- !app_assoc. reflexivity.
  - destruct (Kill_cases env kf
                (extend w [EvACSEServiceProvider; EvDIMSEServiceProvider;
                           EvSleep 100; accept_event env w])) as [[j Hj]|[j Hj]];
      rewrite Hj; [exists (kill_chunk j) | exists (wait_chunk j)];
      unfold killed, extend; cbn [snd trace]; rewrite Hev, <- !app_assoc; reflexivity.
Qed.


(** ** The requestor after an accepted answer *)

Lemma run_requestor_accepted_unfold env kf fuel w r :
  mode (self w) = Some Requestor ->
  request_answer env w = (true, Some r) ->
  run env kf fuel w = main_loop env kf fuel None (requestor_world env w r).
Proof.
  intros Hm Ha.
  rewrite (run_requestor_unfold env kf fuel w Hm), Ha. cbn [fst snd].
  unfold reply_from_remote, requestor_world, accepted_callbacks, extend,
    request_history.
  destruct (has_OnAssociateResponse (AE (self w)));
    destruct (String.eqb (Result r) "Accepted");
    unfold established, bind, emit, ret, read, modify; cbn [self trace app];
    rewrite <- ?app_assoc; cbn [app]; rewrite <- ?app_assoc; reflexivity.
Qed.

(** The main loop of a requestor only sleeps: it is left only with the kill
    flag set by someone else. *)
Lemma main_loop_requestor_spins env kf assoc :
  forall fuel w,
    mode (self w) = Some Requestor ->
    _Kill (self w) = false ->
    main_loop env kf fuel assoc w = (OutOfFuel, extend w (repeat (EvSleep 1) fuel)).
Proof.
  induction fuel as [|fuel IH]; intros w Hm Hk.
  - cbn [main_loop]. unfold bind, get_self. rewrite Hk. cbn.
    rewrite extend_nil. reflexivity.
  - rewrite (main_loop_requestor_step env kf fuel assoc w Hm Hk).
    rewrite (IH (extend w [EvSleep 1]) Hm Hk).
    rewrite extend_extend. reflexivity.
Qed.

Lemma main_loop_requestor_sleeps env kf assoc fuel w :
  mode (self w) = Some Requestor ->
  exists n, snd (main_loop env kf fuel assoc w) = extend w (repeat (EvSleep 1) n).
Proof.
  intros Hm. destruct (_Kill (self w)) eqn:Hk.
  - exists O. rewrite (main_loop_killed env kf fuel assoc w Hk). cbn.
    rewrite extend_nil. reflexivity.
  - exists fuel. rewrite (main_loop_requestor_spins env kf assoc fuel w Hm Hk).
    reflexivity.
Qed.

Lemma In_repeat_sleep e n : In e (repeat (EvSleep 1) n) -> e = EvSleep 1.
Proof. intros H. apply repeat_spec in H. exact H. Qed.

Lemma In_accepted_callbacks s r :
  In (EvAccepted r) (accepted_callbacks s r) <-> Result r = "Accepted".
Proof.
  unfold accepted_callbacks. rewrite in_app_iff. split.
  - intros [H|H].
    + destruct (has_OnAssociateResponse (AE s)); [|destruct H].
      destruct H as [H|[]]. discriminate H.
    + destruct (String.eqb_spec (Result r) "Accepted") as [E|E]; [exact E|].
      destruct H.
  - intros E. right. apply String.eqb_eq in E. rewrite E. left. reflexivity.
Qed.

(** X5. On the requestor path the truth of [ans] alone decides that the
    association is established: with a response, [AssociationEstablished]
    becomes [True] and [on_association_established] is called whatever
    [response.Result] is; that attribute only decides whether
    [on_association_accepted] is called first. *)
Theorem requestor_established_whatever_result :
  forall (env : Env) (kf fuel : nat) (w : World) (r : A_ASSOCIATE),
    mode (self w) = Some Requestor ->
    request_answer env w = (true, Some r) ->
    exists t : Trace,
      trace (snd (run env kf fuel w)) = trace w ++ t
      /\ AssociationEstablished (self (snd (run env kf fuel w))) = true
      /\ In EvEstablished t
      /\ (In (EvAccepted r) t <-> Result r = "Accepted").
Proof.
  intros env kf fuel w r Hm Ha.
  rewrite (run_requestor_accepted_unfold env kf fuel w r Hm Ha).
  destruct (main_loop_requestor_sleeps env kf None fuel (requestor_world env w r) Hm)
    as [n Hn].
  rewrite Hn.
  exists ([EvACSEServiceProvider; EvDIMSEServiceProvider; request_event env w] ++
          accepted_callbacks (self w) r ++ [EvEstablished] ++ repeat (EvSleep 1) n).
  split; [|split; [reflexivity|split]].
  - unfold extend, requestor_world, request_history. cbn [trace].
    rewrite <- !app_assoc. cbn [app]. rewrite <- ?app_assoc. reflexivity.
  - apply in_or_app. right. apply in_or_app. right. left. reflexivity.
  - rewrite !in_app_iff. split.
    + intros [H|[H|[H|H]]].
      * unfold request_event in H. cbn in H.
        destruct H as [H|[H|[H|[]]]]; discriminate H.
      * apply (proj1 (In_accepted_callbacks (self w) r) H).
      * destruct H as [H|[]]. discriminate H.
      * apply In_repeat_sleep in H. discriminate H.
    + intros E. right. left. apply In_accepted_callbacks. exact E.
Qed.

(** X6. An established requestor never leaves the main loop by itself: its
    iterations only sleep - no poll of the DIMSE, ACSE or DUL provider - so
    that, as long as no one else sets the kill flag, the worker is still
    running after any number of iterations. *)
Theorem requestor_loop_only_sleeps :
  forall (env : Env) (kf fuel : nat) (w : World) (r : A_ASSOCIATE),
    mode (self w) = Some Requestor ->
    _Kill (self w) = false ->
    request_answer env w = (true, Some r) ->
    run env kf fuel w =
      (OutOfFuel,
       {| self := self (requestor_world env w r);
          trace := trace (requestor_world env w r) ++ repeat (EvSleep 1) fuel |}).
Proof.
  intros env kf fuel w r Hm Hk Ha.
  rewrite (run_requestor_accepted_unfold env kf fuel w r Hm Ha).
  apply main_loop_requestor_spins; [exact Hm | exact Hk].
Qed.

Lemma build_SOPClasses_fold env contexts :
  forall acc,
    fold_left
      (fun acc (context : PCID * UID * TransferSyntax) =>
         acc ++ [(fst (fst context), UID2SOPClass env (snd (fst context)), snd context)])
      contexts acc
    = acc ++ map (fun context =>
                    (fst (fst context), UID2SOPClass env (snd (fst context)),
                     snd context)) contexts.
Proof.
  induction contexts as [|c contexts IH]; intros acc; cbn.
  - rewrite app_nil_r. reflexivity.
  - rewrite IH, <- app_assoc. reflexivity.
Qed.

Lemma build_SOPClasses_map env contexts :
  build_SOPClasses env contexts =
    map (fun context =>
           (fst (fst context), UID2SOPClass env (snd (fst context)), snd context))
      contexts.
Proof. unfold build_SOPClasses. apply build_SOPClasses_fold. Qed.

Lemma matching_classes_nonempty cls l x :
  In x l -> snd (fst x) = cls -> matching_classes cls l <> [].
Proof.
  intros Hin Hx Hnil.
  assert (H : In x (matching_classes cls l)).
  { unfold matching_classes. apply filter_In. split; [exact Hin|].
    apply String.eqb_eq. exact Hx. }
  rewrite Hnil in H. destruct H.
Qed.

(** X7. Once a requestor is established, every dataset whose SOP class UID is
    the abstract syntax of an accepted presentation context is supported by
    [SCU]: the call does not raise, and it leaves the association as it
    is. *)
Theorem SCU_supported_after_establishment :
  forall (env : Env) (kf fuel : nat) (w : World) (r : A_ASSOCIATE)
         (ds : Dataset) (id : Z) (pcid : PCID) (ts : TransferSyntax),
    mode (self w) = Some Requestor ->
    request_answer env w = (true, Some r) ->
    In (pcid, ds_SOPClassUID ds, ts)
       (ACSE_AcceptedPresentationContexts env
          (request_history w ++ request_event env w ::
           accepted_callbacks (self w) r)) ->
    exists status obj,
      SCU env ds id (snd (run env kf fuel w)) =
        (Returned status,
         extend (snd (run env kf fuel w)) [EvSCU obj ds id status])
      /\ obj_class obj = UID2SOPClass env (ds_SOPClassUID ds)
      /\ obj_sopclass obj = Some (UID2SOPClass env (ds_SOPClassUID ds)).
Proof.
  intros env kf fuel w r ds id pcid ts Hm Ha Hin.
  rewrite (run_requestor_accepted_unfold env kf fuel w r Hm Ha).
  destruct (main_loop_requestor_sleeps env kf None fuel (requestor_world env w r) Hm)
    as [n Hn].
  rewrite Hn. set (w' := extend (requestor_world env w r) (repeat (EvSleep 1) n)).
  set (cls := UID2SOPClass env (ds_SOPClassUID ds)).
  assert (Ht : SOPClassesAsSCU (self w') =
               build_SOPClasses env
                 (ACSE_AcceptedPresentationContexts env
                    (request_history w ++ request_event env w ::
                     accepted_callbacks (self w) r))) by reflexivity.
  assert (Hin' : In (pcid, cls, ts) (SOPClassesAsSCU (self w'))).
  { rewrite Ht, build_SOPClasses_map.
    apply (in_map (fun context =>
                     (fst (fst context), UID2SOPClass env (snd (fst context)),
                      snd context)) _ _ Hin). }
  pose proof (matching_classes_nonempty cls _ _ Hin' eq_refl) as Hne.
  unfold SCU, bind at 1, get_self at 1. cbn [new_object obj_class]. fold cls.
  destruct (matching_classes cls (SOPClassesAsSCU (self w'))) as [|x l] eqn:Em;
    [contradiction|].
  assert (Hx : snd (fst x) = cls).
  { assert (Hxin : In x (matching_classes cls (SOPClassesAsSCU (self w'))))
      by (rewrite Em; left; reflexivity).
    unfold matching_classes in Hxin. apply filter_In in Hxin.
    apply String.eqb_eq. exact (proj2 Hxin). }
  eexists. eexists. split; [reflexivity|]. cbn. split; [reflexivity|].
  rewrite Hx. reflexivity.
Qed.

(** ** What the worker calls and what it assigns *)

Lemma loop_call_worker e : loop_call e = true -> worker_call e = true.
Proof. destruct e; cbn; auto. Qed.

Lemma forallb_app_true (f : Event -> bool) t1 t2 :
  forallb f t1 = true -> forallb f t2 = true -> forallb f (t1 ++ t2) = true.
Proof. intros H1 H2. rewrite forallb_app, H1, H2. reflexivity. Qed.

Section LoopCalls.

Variable I : Association -> Prop.
Variable P : Trace -> Prop.
Variable R : Exn -> Prop.
Variable env : Env.

Hypothesis P_nil : P [].
Hypothesis P_app : forall t1 t2, P t1 -> P t2 -> P (t1 ++ t2).
Hypothesis P_loop : forall e, loop_call e = true -> P [e].
Hypothesis I_Kill : forall s, I s -> I (set_Kill true s).
Hypothesis R_mode : forall s, I s -> mode s = None -> R (AttributeError "mode").

Lemma loop_Kill_wait fuel : steps I P R (Kill_wait env fuel).
Proof.
  induction fuel as [|fuel IH]; cbn [Kill_wait].
  - apply steps_out_of_fuel. exact P_nil.
  - apply steps_bind; [exact P_app | |].
    + apply steps_ask. intros b. apply P_loop. reflexivity.
    + intros [|]; [apply steps_ret; exact P_nil|].
      apply steps_bind; [exact P_app | |intros _; exact IH].
      apply steps_emit, P_loop. reflexivity.
Qed.

Lemma loop_Kill fuel : steps I P R (Kill env fuel).
Proof.
  unfold Kill. apply steps_bind; [exact P_app | |intros _; apply loop_Kill_wait].
  apply steps_modify; [exact P_nil | exact I_Kill].
Qed.

Lemma loop_receive_and_dispatch assoc : steps I P R (receive_and_dispatch env assoc).
Proof.
  intros w Hw. rewrite receive_and_dispatch_eq. cbn [fst snd extend self trace].
  eexists. split; [reflexivity|]. split; [|split; [exact Hw | discriminate]].
  unfold received_trace. destruct (DIMSE_Receive env (trace w)) as [[msg pcid]|].
  - apply (P_app [_] [_]); apply P_loop; reflexivity.
  - apply P_loop. reflexivity.
Qed.

Lemma loop_cond_Kill (c : bool) fuel :
  steps I P R (if c then Kill env fuel else ret tt).
Proof. destruct c; [apply loop_Kill | apply steps_ret; exact P_nil]. Qed.

Lemma loop_polls kf : steps I P R (polls env kf).
Proof.
  unfold polls.
  apply steps_bind; [exact P_app | |].
  { apply steps_ask. intros b. apply P_loop. reflexivity. }
  intros released. apply steps_bind; [exact P_app | |].
  { destruct released; [|apply steps_ret; exact P_nil].
    apply steps_bind; [exact P_app | |intros _; apply loop_Kill].
    apply steps_emit, P_loop. reflexivity. }
  intros _. apply steps_bind; [exact P_app | |].
  { apply steps_ask. intros b. apply P_loop. reflexivity. }
  intros [|].
  - apply steps_bind; [exact P_app | |].
    { apply steps_emit, P_loop. reflexivity. }
    intros _. apply steps_bind; [exact P_app | apply loop_Kill |].
    intros _. apply steps_ret. exact P_nil.
  - apply steps_bind; [exact P_app | |].
    { apply steps_ask. intros b. apply P_loop. reflexivity. }
    intros alive. apply steps_bind; [exact P_app | apply loop_cond_Kill |].
    intros _. apply steps_bind; [exact P_app | |].
    { apply steps_ask. intros b. apply P_loop. reflexivity. }
    intros expired. apply steps_bind; [exact P_app | apply loop_cond_Kill |].
    intros _. apply steps_ret. exact P_nil.
Qed.

Lemma loop_main_loop kf fuel assoc : steps I P R (main_loop env kf fuel assoc).
Proof.
  induction fuel as [|fuel IH]; cbn [main_loop]; apply steps_get_self; intros s Hs.
  - destruct (_Kill s); [apply steps_ret | apply steps_out_of_fuel]; exact P_nil.
  - destruct (_Kill s); [apply steps_ret; exact P_nil|].
    apply steps_bind; [exact P_app | |].
    { apply steps_emit, P_loop. reflexivity. }
    intros _. destruct (mode s) as [[|]|] eqn:Em.
    + apply steps_bind; [exact P_app | |].
      * unfold acceptor_iteration. apply steps_bind;
          [exact P_app | apply loop_receive_and_dispatch | intros _; apply loop_polls].
      * intros [|]; [exact IH | apply steps_ret; exact P_nil].
    + exact IH.
    + apply steps_raise; [exact P_nil | exact (R_mode s Hs Em)].
Qed.

End LoopCalls.

Section WorkerCalls.

Variable I : Association -> Prop.
Variable P : Trace -> Prop.
Variable env : Env.

Hypothesis P_nil : P [].
Hypothesis P_app : forall t1 t2, P t1 -> P t2 -> P (t1 ++ t2).
Hypothesis P_call : forall e, worker_call e = true -> P [e].
Hypothesis I_Kill : forall s, I s -> I (set_Kill true s).
Hypothesis I_SCP : forall s l, I s -> I (set_SOPClassesAsSCP l s).
Hypothesis I_SCU : forall s l, I s -> I (set_SOPClassesAsSCU l s).
Hypothesis I_Established : forall s, I s -> I (set_AssociationEstablished true s).
Hypothesis I_Refused : forall s, I s -> I (set_AssociationRefused (Some true) s).

Lemma worker_main_loop kf fuel assoc :
  steps I P any_exn (main_loop env kf fuel assoc).
Proof.
  apply loop_main_loop; auto.
  - intros e He. apply P_call, loop_call_worker, He.
  - intros; exact Logic.I.
Qed.

Lemma worker_Kill fuel : steps I P any_exn (Kill env fuel).
Proof.
  apply loop_Kill; auto.
  intros e He. apply P_call, loop_call_worker, He.
Qed.

Lemma worker_established kf fuel assoc :
  steps I P any_exn (established env kf fuel assoc).
Proof.
  unfold established.
  apply steps_bind; [exact P_app | |].
  { apply steps_modify; [exact P_nil | exact I_Established]. }
  intros _. apply steps_bind; [exact P_app | |intros _; apply worker_main_loop].
  apply steps_emit, P_call. reflexivity.
Qed.

Lemma worker_run_acceptor kf fuel : steps I P any_exn (run_acceptor env kf fuel).
Proof.
  unfold run_acceptor.
  apply steps_bind; [exact P_app | |].
  { apply steps_emit, P_call. reflexivity. }
  intros _. apply steps_get_self. intros s Hs.
  destruct (limit_check (AE s)) as [result diag].
  apply steps_bind; [exact P_app | |].
  { apply steps_ask. intros a. apply P_call. reflexivity. }
  intros [a|]; [|apply worker_Kill].
  apply steps_bind; [exact P_app | |].
  { apply steps_emit, P_call. reflexivity. }
  intros _. apply steps_bind; [exact P_app | apply steps_read; exact P_nil |].
  intros contexts. apply steps_bind; [exact P_app | |].
  { apply steps_modify; [exact P_nil | intros s0 Hs0; apply I_SCP; exact Hs0]. }
  intros _. apply worker_established.
Qed.

Lemma worker_reply_from_remote kf fuel s ans response :
  steps I P any_exn (reply_from_remote env kf fuel s ans response).
Proof.
  unfold reply_from_remote. destruct ans.
  - apply steps_bind; [exact P_app | |].
    { destruct (has_OnAssociateResponse (AE s));
        [apply steps_emit, P_call; reflexivity | apply steps_ret; exact P_nil]. }
    intros _. destruct response as [r|];
      [|apply steps_raise; [exact P_nil | exact Logic.I]].
    apply steps_bind; [exact P_app | |].
    { destruct (String.eqb (Result r) "Accepted");
        [apply steps_emit, P_call; reflexivity | apply steps_ret; exact P_nil]. }
    intros _. apply steps_bind; [exact P_app | apply steps_read; exact P_nil |].
    intros contexts. apply steps_bind; [exact P_app | |].
    { apply steps_modify; [exact P_nil | intros s0 Hs0; apply I_SCU; exact Hs0]. }
    intros _. apply worker_established.
  - apply steps_bind; [exact P_app | |].
    { destruct response;
        [apply steps_emit, P_call; reflexivity | apply steps_ret; exact P_nil]. }
    intros _. apply steps_bind; [exact P_app | |].
    { apply steps_modify; [exact P_nil | exact I_Refused]. }
    intros _. apply steps_emit, P_call. reflexivity.
Qed.

Lemma worker_run_requestor kf fuel : steps I P any_exn (run_requestor env kf fuel).
Proof.
  unfold run_requestor. apply steps_get_self. intros s Hs.
  apply steps_bind; [exact P_app | |].
  { apply steps_ask. intros a. apply P_call. reflexivity. }
  intros [ans response]. apply worker_reply_from_remote.
Qed.

Lemma worker_run kf fuel : steps I P any_exn (run env kf fuel).
Proof.
  unfold run.
  apply steps_bind; [exact P_app | |].
  { apply steps_emit, P_call. reflexivity. }
  intros _. apply steps_bind; [exact P_app | |].
  { apply steps_emit, P_call. reflexivity. }
  intros _. apply steps_get_self. intros s Hs.
  destruct (mode s) as [[|]|].
  - apply worker_run_acceptor.
  - apply worker_run_requestor.
  - apply steps_raise; [exact P_nil | exact Logic.I].
Qed.

End WorkerCalls.

(** X8. Whatever the collaborators answer and however long it runs, the
    worker never calls [ACSE.Release], [ACSE.Abort] or [DIMSE.Send] and never
    a service object's [SCU]: when it ends an association on its own - idle
    timer, dead DUL thread - it does so by [DUL.Stop()] alone, with no
    primitive sent to the peer through the ACSE provider. *)
Theorem worker_sends_no_primitive :
  forall (env : Env) (kf fuel : nat) (w : World),
    exists t : Trace,
      trace (snd (run env kf fuel w)) = trace w ++ t
      /\ worker_calls t
      /\ (forall reason, ~ In (EvACSEAbort reason) t)
      /\ (forall reason, ~ In (EvACSERelease reason) t)
      /\ (forall status pcid, ~ In (EvDIMSESend status pcid) t).
Proof.
  intros env kf fuel w.
  assert (Hrun : steps any_state worker_calls any_exn (run env kf fuel)).
  { apply worker_run; unfold any_state; auto.
    - reflexivity.
    - intros t1 t2. apply forallb_app_true.
    - intros e He. unfold worker_calls. cbn. rewrite He. reflexivity. }
  destruct (Hrun w Logic.I) as (t & Et & Pt & _).
  exists t. split; [exact Et|]. split; [exact Pt|].
  unfold worker_calls in Pt. rewrite forallb_forall in Pt.
  repeat split; intros; intros Hin; apply Pt in Hin; discriminate Hin.
Qed.

(** X9. The worker never assigns the attributes that say what the
    association is: [mode], [ClientSocket], [AE] - and with it the entity's
    list of associations and its maximum -, [RemoteAE] and [daemon] are after
    any run what they were before. *)
Theorem run_keeps_configuration :
  forall (env : Env) (kf fuel : nat) (w : World),
    same_configuration (self w) (self (snd (run env kf fuel w))).
Proof.
  intros env kf fuel w.
  assert (Hrun : steps (same_configuration (self w)) any_trace any_exn
                   (run env kf fuel)).
  { apply worker_run; unfold any_trace; auto;
      intros s; intros; unfold same_configuration in *; cbn; assumption. }
  assert (H0 : same_configuration (self w) (self w)).
  { unfold same_configuration. repeat split. }
  destruct (Hrun w H0) as (t & _ & _ & It & _). exact It.
Qed.

(** ** The two flags a requesting thread waits for *)

Lemma forallb_weaken (f g : Event -> bool) t :
  (forall e, f e = true -> g e = true) ->
  forallb f t = true -> forallb g t = true.
Proof.
  intros Hfg H. rewrite forallb_forall in *. intros e He. apply Hfg, H, He.
Qed.

Lemma loop_calls_not_established t : loop_calls t -> not_established_calls t.
Proof. apply forallb_weaken. intros e; destruct e; cbn; auto; discriminate. Qed.

Lemma stop_polls_not_established t :
  forallb is_stop_poll t = true -> not_established_calls t.
Proof. apply forallb_weaken. intros e; destruct e; cbn; auto; discriminate. Qed.

Lemma not_established_split pre tl :
  not_established_calls tl ->
  (In EvEstablished (pre ++ tl) <-> In EvEstablished pre)
  /\ filter established_call (pre ++ tl) = filter established_call pre.
Proof.
  intros H. unfold not_established_calls in H. split.
  - rewrite in_app_iff. split; [|auto].
    intros [Hin|Hin]; [exact Hin|].
    rewrite forallb_forall in H. apply H in Hin. discriminate Hin.
  - rewrite filter_app.
    replace (filter established_call tl) with (@nil Event);
      [apply app_nil_r|].
    symmetry. induction tl as [|e tl IH]; [reflexivity|].
    cbn in H |- *. apply andb_true_iff in H. destruct H as [He Htl].
    destruct (established_call e); [discriminate He|]. apply IH, Htl.
Qed.

Lemma loop_keeps_established_flags env kf fuel assoc :
  steps established_flags loop_calls any_exn (main_loop env kf fuel assoc).
Proof.
  apply loop_main_loop.
  - reflexivity.
  - intros t1 t2. apply forallb_app_true.
  - intros e He. unfold loop_calls. cbn. rewrite He. reflexivity.
  - unfold established_flags. auto.
  - intros; exact I.
Qed.


(** ** The table of SCP classes and the dispatch *)

Lemma dispatch_entry env assoc msg pcid w x :
  last_entry pcid (SOPClassesAsSCP (self w)) = Some x ->
  dispatch env assoc msg pcid w =
    (Returned tt,
     extend w
       [EvSCP {| obj_class := UID2SOPClass env (AffectedSOPClassUID msg);
                 obj_pcid := Some (fst (fst x));
                 obj_sopclass := Some (snd (fst x));
                 obj_transfersyntax := Some (snd x);
                 obj_maxpdulength := Some (ACSE_MaxPDULength env (trace w));
                 obj_DIMSE := true; obj_ACSE := true; obj_AE := true;
                 obj_assoc := assoc |} msg]).
Proof.
  intros H. rewrite dispatch_eq. unfold handler_object.
  rewrite match_context_last, H. reflexivity.
Qed.

(** X11. The loop over the table of SCP classes has no [break]: when several
    entries carry the presentation-context id of a message, the handler gets
    the class and the transfer syntax of the last of them, whatever the
    entries before it say. *)
Theorem dispatch_last_entry_wins :
  forall (env : Env) (assoc : option A_ASSOCIATE) (msg : Message) (pcid : PCID)
         (w : World) l1 (cls : SOPClass) (ts : TransferSyntax) l2,
    SOPClassesAsSCP (self w) = l1 ++ (pcid, cls, ts) :: l2 ->
    (forall y, In y l2 -> fst (fst y) <> pcid) ->
    dispatch env assoc msg pcid w =
      (Returned tt,
       extend w
         [EvSCP {| obj_class := UID2SOPClass env (AffectedSOPClassUID msg);
                   obj_pcid := Some pcid;
                   obj_sopclass := Some cls;
                   obj_transfersyntax := Some ts;
                   obj_maxpdulength := Some (ACSE_MaxPDULength env (trace w));
                   obj_DIMSE := true; obj_ACSE := true; obj_AE := true;
                   obj_assoc := assoc |} msg]).
Proof.
  intros env assoc msg pcid w l1 cls ts l2 Ht Hl2.
  apply (dispatch_entry env assoc msg pcid w (pcid, cls, ts)).
  rewrite Ht. apply last_entry_some; [reflexivity | exact Hl2].
Qed.

Lemma NoDup_ids_after (ctxs : list (PCID * UID * TransferSyntax)) l1 c l2 :
  NoDup (map (fun c => fst (fst c)) ctxs) ->
  ctxs = l1 ++ c :: l2 ->
  forall y, In y l2 -> fst (fst y) <> fst (fst c).
Proof.
  intros Hnd E y Hy Heq. subst ctxs.
  rewrite map_app in Hnd. cbn in Hnd.
  apply NoDup_remove_2 in Hnd. apply Hnd.
  apply in_or_app. right. rewrite <- Heq.
  apply (in_map (fun c => fst (fst c)) _ _ Hy).
Qed.

(** X12. With the table the acceptor builds from accepted contexts whose ids
    are distinct, a message received on a context and carrying that
    context's abstract syntax as its AffectedSOPClassUID is handled by the
    class registered for the context, which is given the context's id and
    transfer syntax. *)
Theorem dispatch_registered_class :
  forall (env : Env) (assoc : option A_ASSOCIATE) (msg : Message) (pcid : PCID)
         (ts : TransferSyntax) (w : World)
         (contexts : list (PCID * UID * TransferSyntax)),
    SOPClassesAsSCP (self w) = build_SOPClasses env contexts ->
    NoDup (map (fun c => fst (fst c)) contexts) ->
    In (pcid, AffectedSOPClassUID msg, ts) contexts ->
    let cls := UID2SOPClass env (AffectedSOPClassUID msg) in
    dispatch env assoc msg pcid w =
      (Returned tt,
       extend w
         [EvSCP {| obj_class := cls;
                   obj_pcid := Some pcid;
                   obj_sopclass := Some cls;
                   obj_transfersyntax := Some ts;
                   obj_maxpdulength := Some (ACSE_MaxPDULength env (trace w));
                   obj_DIMSE := true; obj_ACSE := true; obj_AE := true;
                   obj_assoc := assoc |} msg]).
Proof.
  intros env assoc msg pcid ts w contexts Ht Hnd Hin cls.
  destruct (in_split _ _ Hin) as (l1 & l2 & E).
  pose (f := fun context : PCID * UID * TransferSyntax =>
               (fst (fst context), UID2SOPClass env (snd (fst context)), snd context)).
  apply (dispatch_entry env assoc msg pcid w (pcid, cls, ts)).
  replace (SOPClassesAsSCP (self w)) with (map f l1 ++ (pcid, cls, ts) :: map f l2)
    by (rewrite Ht, build_SOPClasses_map, E, map_app; reflexivity).
  apply last_entry_some; [reflexivity|].
  intros y Hy. apply in_map_iff in Hy. destruct Hy as (c & Hc & Hcin).
  subst y. cbn.
  exact (NoDup_ids_after contexts l1 (pcid, AffectedSOPClassUID msg, ts) l2
           Hnd E c Hcin).
Qed.

(** ** __getattr__ *)

(** X13. [__getattr__] fails in two ways: its [eval] can raise, and a class
    that is in no entry of [SOPClassesAsSCU] raises [IndexError] - not the
    "not supported as SCU" exception of [SCU]; when it succeeds it has bound
    the local entity itself as the object's [RemoteAE]. *)
Theorem getattr_outcomes :
  forall (eval_call : string -> option SOPClass) (env : Env)
         (attr : string) (w : World),
    match eval_call attr with
    | None => __getattr__ eval_call env attr w = inl (EvalRaised attr)
    | Some cls =>
        ((forall x, In x (SOPClassesAsSCU (self w)) -> snd (fst x) <> cls) ->
         __getattr__ eval_call env attr w = inl IndexError)
        /\ ((exists x, In x (SOPClassesAsSCU (self w)) /\ snd (fst x) = cls) ->
            exists obj, __getattr__ eval_call env attr w = inr (obj, AE (self w))
                        /\ obj_class obj = cls /\ obj_sopclass obj = Some cls)
    end.
Proof.
  intros eval_call env attr w. unfold __getattr__.
  destruct (eval_call attr) as [cls|]; [|reflexivity].
  cbn [new_object obj_class]. split.
  - intros H. rewrite (matching_classes_none _ _ H). reflexivity.
  - intros (x & Hin & Hx).
    pose proof (matching_classes_nonempty cls _ _ Hin Hx) as Hne.
    destruct (matching_classes cls (SOPClassesAsSCU (self w))) as [|y l] eqn:Em;
      [contradiction|].
    assert (Hy : snd (fst y) = cls).
    { assert (Hyin : In y (matching_classes cls (SOPClassesAsSCU (self w))))
        by (rewrite Em; left; reflexivity).
      unfold matching_classes in Hyin. apply filter_In in Hyin.
      apply String.eqb_eq. exact (proj2 Hyin). }
    eexists. split; [reflexivity|]. cbn. split; [reflexivity|].
    rewrite Hy. reflexivity.
Qed.

(** X14. [__getattr__] and [SCU] agree: for a name that evaluates to the
    class of a dataset, the object [__getattr__] returns has the class, the
    [pcid], [sopclass], [transfersyntax], [maxpdulength], [DIMSE] and [AE] of
    the object whose [SCU] method [Association.SCU] calls for that dataset;
    the two differ only in [RemoteAE], which [__getattr__] alone binds, to
    the association's own entity.  One fails exactly when the other does:
    [__getattr__] with the [IndexError] of the empty selection, [SCU] with
    its exception that the class is not supported. *)
Theorem getattr_agrees_with_SCU :
  forall (eval_call : string -> option SOPClass) (env : Env)
         (attr : string) (ds : Dataset) (id : Z) (w : World),
    eval_call attr = Some (UID2SOPClass env (ds_SOPClassUID ds)) ->
    match __getattr__ eval_call env attr w with
    | inr (obj, remote) =>
        remote = AE (self w)
        /\ exists status,
             SCU env ds id w = (Returned status, extend w [EvSCU obj ds id status])
    | inl err =>
        err = IndexError
        /\ SCU env ds id w =
             (Raised (Exception ("SOP Class " ++ ds_SOPClassUID ds ++
                                 " not supported as SCU")%string), w)
    end.
Proof.
  intros eval_call env attr ds id w He.
  unfold __getattr__, SCU, bind, get_self. rewrite He.
  cbn [new_object obj_class].
  destruct (matching_classes (UID2SOPClass env (ds_SOPClassUID ds))
              (SOPClassesAsSCU (self w))) as [|x l].
  - split; reflexivity.
  - split; [reflexivity|]. eexists. reflexivity.
Qed.

(** ** movescp: the preferred transfer syntaxes *)

Lemma list_remove_perm x l :
  In x l -> Permutation l (x :: list_remove x l).
Proof.
  induction l as [|y l IH]; intros Hin; [destruct Hin|].
  cbn. destruct (String.eqb_spec y x) as [E|E].
  - subst y. apply Permutation_refl.
  - destruct Hin as [Hin|Hin]; [contradiction|].
    eapply perm_trans; [apply perm_skip, IH, Hin | apply perm_swap].
Qed.

Lemma filter_other_notin x l :
  ~ In x l -> filter (fun y => negb (String.eqb y x)) l = l.
Proof.
  induction l as [|y l IH]; intros Hn; [reflexivity|].
  cbn. destruct (String.eqb_spec y x) as [E|E].
  - exfalso. apply Hn. left. exact E.
  - cbn. rewrite IH; [reflexivity|]. intros H. apply Hn. right. exact H.
Qed.

Lemma list_remove_filter x l :
  NoDup l -> list_remove x l = filter (fun y => negb (String.eqb y x)) l.
Proof.
  induction l as [|y l IH]; intros Hnd; [reflexivity|].
  inversion Hnd as [|? ? Hy Hl]; subst.
  cbn. destruct (String.eqb_spec y x) as [E|E]; cbn.
  - subst y. symmetry. apply filter_other_notin. exact Hy.
  - rewrite IH; [reflexivity | exact Hl].
Qed.

Lemma existsb_eqb_In ts l : existsb (String.eqb ts) l = true <-> In ts l.
Proof.
  rewrite existsb_exists. split.
  - intros (y & Hy & E). apply String.eqb_eq in E. subst. exact Hy.
  - intros H. exists ts. split; [exact H | apply String.eqb_refl].
Qed.

(** X15. The move-to-front step of movescp, on any list: a transfer syntax
    that is in the list becomes its head and the list stays a permutation of
    itself - with the other entries in their order when there is no
    duplicate -, and a transfer syntax that is not in the list leaves it
    unchanged, it is not added. *)
Theorem prefer_moves_to_front :
  forall (ts : UID) (l : list UID),
    (In ts l ->
     exists rest, prefer ts l = ts :: rest
                  /\ Permutation l (ts :: rest)
                  /\ (NoDup l ->
                      rest = filter (fun y => negb (String.eqb y ts)) l))
    /\ (~ In ts l -> prefer ts l = l).
Proof.
  intros ts l. unfold prefer. split.
  - intros Hin. rewrite (proj2 (existsb_eqb_In ts l) Hin).
    exists (list_remove ts l). split; [reflexivity|]. split.
    + apply list_remove_perm. exact Hin.
    + apply list_remove_filter.
  - intros Hn. destruct (existsb (String.eqb ts) l) eqn:E; [|reflexivity].
    exfalso. apply Hn. apply existsb_eqb_In. exact E.
Qed.

(** X16. The options of movescp: [--implicit] leaves implicit VR little
    endian as the only transfer syntax, whatever the preferences; without
    it the three transfer syntaxes are all offered, each once, headed by
    explicit VR big endian under [--prefer-big], else by explicit VR little
    endian under [--prefer-little], else by implicit VR little endian; with
    both preferences the order is big, little, implicit. *)
Theorem transfer_syntax_options :
  forall (prefer_little prefer_big : bool),
    transfer_syntax true prefer_little prefer_big = [ImplicitVRLittleEndian]
    /\ Permutation (transfer_syntax false prefer_little prefer_big)
         [ImplicitVRLittleEndian; ExplicitVRLittleEndian; ExplicitVRBigEndian]
    /\ hd_error (transfer_syntax false prefer_little prefer_big) =
         Some (if prefer_big then ExplicitVRBigEndian
               else if prefer_little then ExplicitVRLittleEndian
               else ImplicitVRLittleEndian)
    /\ transfer_syntax false true true =
         [ExplicitVRBigEndian; ExplicitVRLittleEndian; ImplicitVRLittleEndian].
Proof.
  intros pl pb. split; [destruct pl, pb; reflexivity|].
  split; [|split; [destruct pl, pb; reflexivity | reflexivity]].
  destruct pl, pb; vm_compute.
  - eapply perm_trans; [apply perm_swap|].
    eapply perm_trans; [apply perm_skip, perm_swap|]. apply perm_swap.
  - apply perm_swap.
  - eapply perm_trans; [apply perm_swap|]. apply perm_skip. apply perm_swap.
  - apply Permutation_refl.
Qed.

(** X17. [on_c_move] always yields three things in this order: the count 1,
    a destination, and the one dataset read from
    ../test/dicom_files/CTImageStorage.dcm, so that the count it announces
    is the number of datasets that follow.  The destination is known only
    for the AE title ANY-SCP padded with spaces to 16 bytes; for every other
    title - the unpadded one too - it is (None, None). *)
Theorem on_c_move_yields :
  forall (read_file : string -> Dataset) (dataset : Dataset) (move_aet : string),
    exists dest,
      on_c_move read_file dataset move_aet =
        [YieldCount 1; dest;
         YieldDataset (read_file "../test/dicom_files/CTImageStorage.dcm")]
      /\ (dest = YieldDestination (Some "10.40.94.43") (Some 104)
          <-> move_aet = "ANY-SCP         ")
      /\ (dest = YieldDestination None None <-> move_aet <> "ANY-SCP         ")
      /\ on_c_move read_file dataset "ANY-SCP" =
           [YieldCount 1; YieldDestination None None;
            YieldDataset (read_file "../test/dicom_files/CTImageStorage.dcm")].
Proof.
  intros read_file dataset move_aet. unfold on_c_move.
  destruct (String.eqb_spec move_aet "ANY-SCP         ") as [E|E].
  - eexists. split; [reflexivity|]. split; [tauto|]. split; [|reflexivity].
    split; [discriminate | contradiction].
  - eexists. split; [reflexivity|]. split; [|split; [tauto | reflexivity]].
    split; [discriminate | contradiction].
Qed.

(** ** Instances of the further properties *)


Lemma Kill_waits_forever_witness :
  Kill stubborn_env 2 (start established_acceptor) =
    (OutOfFuel,
     {| self := set_Kill true established_acceptor;
        trace := [EvStop false; EvSleep 1; EvStop false; EvSleep 1] |})
  /\ fst (Abort stubborn_env 2 0 (start established_acceptor)) = OutOfFuel
  /\ fst (Release stubborn_env 2 0 (start established_acceptor)) = OutOfFuel.
Proof.
  exact (Kill_waits_forever stubborn_env (fun h => eq_refl) 2 0
           (start established_acceptor)).
Defined.

(** Two associations in the list of an entity whose maximum is two: nothing
    is pre-set. *)
Lemma accept_limit_threshold_witness :
  exists (answer : option A_ASSOCIATE) (t : Trace),
    trace (snd (run quiet_env 1 1 (start (new_acceptor [1%nat; 2%nat])))) =
      [] ++
      [EvACSEServiceProvider; EvDIMSEServiceProvider; EvSleep 100;
       EvAccept (Some 7%nat) [(verification_uid, [implicit_vr])] None None answer]
      ++ t.
Proof.
  exact (accept_limit_threshold quiet_env 1 1
           (start (new_acceptor [1%nat; 2%nat])) eq_refl).
Defined.


Lemma requestor_established_whatever_result_witness :
  exists t : Trace,
    trace (snd (run stubborn_env 1 2 (start (new_requestor (example_ae []))))) = [] ++ t
    /\ AssociationEstablished
         (self (snd (run stubborn_env 1 2 (start (new_requestor (example_ae []))))))
       = true
    /\ In EvEstablished t
    /\ (In (EvAccepted example_assoc) t <-> Result example_assoc = "Accepted").
Proof.
  exact (requestor_established_whatever_result stubborn_env 1 2
           (start (new_requestor (example_ae []))) example_assoc eq_refl eq_refl).
Defined.

Lemma requestor_loop_only_sleeps_witness :
  run stubborn_env 1 2 (start (new_requestor (example_ae []))) =
    (OutOfFuel,
     {| self := self (requestor_world stubborn_env
                        (start (new_requestor (example_ae []))) example_assoc);
        trace := trace (requestor_world stubborn_env
                          (start (new_requestor (example_ae []))) example_assoc)
                 ++ repeat (EvSleep 1) 2 |}).
Proof.
  exact (requestor_loop_only_sleeps stubborn_env 1 2
           (start (new_requestor (example_ae []))) example_assoc
           eq_refl eq_refl eq_refl).
Defined.

Lemma SCU_supported_after_establishment_witness :
  exists status obj,
    SCU stubborn_env
      {| ds_SOPClassUID := verification_uid; ds_SOPInstanceUID := "1.2.3" |} 1
      (snd (run stubborn_env 1 2 (start (new_requestor (example_ae []))))) =
      (Returned status,
       extend (snd (run stubborn_env 1 2 (start (new_requestor (example_ae [])))))
         [EvSCU obj
            {| ds_SOPClassUID := verification_uid; ds_SOPInstanceUID := "1.2.3" |}
            1 status])
    /\ obj_class obj = "VerificationSOPClass"
    /\ obj_sopclass obj = Some "VerificationSOPClass".
Proof.
  exact (SCU_supported_after_establishment stubborn_env 1 2
           (start (new_requestor (example_ae []))) example_assoc
           {| ds_SOPClassUID := verification_uid; ds_SOPInstanceUID := "1.2.3" |}
           1 1 implicit_vr eq_refl eq_refl (or_introl eq_refl)).
Defined.


Lemma dispatch_last_entry_wins_witness :
  dispatch quiet_env None (fst (echo_on 1)) 1
    (start (set_SOPClassesAsSCP
              [(1, "CTImageStorageSOPClass", ExplicitVRLittleEndian);
               (1, "VerificationSOPClass", implicit_vr);
               (3, "CTImageStorageSOPClass", implicit_vr)]
              (new_acceptor [1%nat])))
  = (Returned tt,
     extend
       (start (set_SOPClassesAsSCP
                 [(1, "CTImageStorageSOPClass", ExplicitVRLittleEndian);
                  (1, "VerificationSOPClass", implicit_vr);
                  (3, "CTImageStorageSOPClass", implicit_vr)]
                 (new_acceptor [1%nat])))
       [EvSCP {| obj_class := "VerificationSOPClass"; obj_pcid := Some 1;
                 obj_sopclass := Some "VerificationSOPClass";
                 obj_transfersyntax := Some implicit_vr;
                 obj_maxpdulength := Some 16382;
                 obj_DIMSE := true; obj_ACSE := true; obj_AE := true;
                 obj_assoc := None |}
              (fst (echo_on 1))]).
Proof.
  apply (dispatch_last_entry_wins quiet_env None (fst (echo_on 1)) 1
           (start (set_SOPClassesAsSCP
                     [(1, "CTImageStorageSOPClass", ExplicitVRLittleEndian);
                      (1, "VerificationSOPClass", implicit_vr);
                      (3, "CTImageStorageSOPClass", implicit_vr)]
                     (new_acceptor [1%nat])))
           [(1, "CTImageStorageSOPClass", ExplicitVRLittleEndian)]
           "VerificationSOPClass" implicit_vr
           [(3, "CTImageStorageSOPClass", implicit_vr)]).
  - reflexivity.
  - intros y [E|[]]. subst y. cbn. discriminate.
Defined.

Lemma dispatch_registered_class_witness :
  dispatch quiet_env (Some example_assoc) (fst (echo_on 1)) 1
    (start established_acceptor)
  = (Returned tt,
     extend (start established_acceptor)
       [EvSCP {| obj_class := "VerificationSOPClass"; obj_pcid := Some 1;
                 obj_sopclass := Some "VerificationSOPClass";
                 obj_transfersyntax := Some implicit_vr;
                 obj_maxpdulength := Some 16382;
                 obj_DIMSE := true; obj_ACSE := true; obj_AE := true;
                 obj_assoc := Some example_assoc |}
              (fst (echo_on 1))]).
Proof.
  apply (dispatch_registered_class quiet_env (Some example_assoc) (fst (echo_on 1)) 1
           implicit_vr (start established_acceptor)
           [(1, verification_uid, implicit_vr)]).
  - reflexivity.
  - constructor; [intros [] | constructor].
  - left. reflexivity.
Defined.

Lemma getattr_outcomes_witness :
  __getattr__ example_eval quiet_env "CTImageStorageSOPClass"
    (start negotiated_requestor) = inl IndexError
  /\ exists obj,
       __getattr__ example_eval quiet_env "VerificationSOPClass"
         (start negotiated_requestor) = inr (obj, example_ae [])
       /\ obj_class obj = "VerificationSOPClass"
       /\ obj_sopclass obj = Some "VerificationSOPClass".
Proof.
  split.
  - apply (proj1 (getattr_outcomes example_eval quiet_env "CTImageStorageSOPClass"
                    (start negotiated_requestor))).
    intros x [E|[]]. subst x. cbn. discriminate.
  - apply (proj2 (getattr_outcomes example_eval quiet_env "VerificationSOPClass"
                    (start negotiated_requestor))).
    exists (1, "VerificationSOPClass", implicit_vr). split; [left|]; reflexivity.
Defined.

Lemma getattr_agrees_with_SCU_witness :
  match __getattr__ example_eval quiet_env "VerificationSOPClass"
          (start negotiated_requestor) with
  | inr (obj, remote) =>
      remote = AE negotiated_requestor
      /\ exists status,
           SCU quiet_env
             {| ds_SOPClassUID := verification_uid; ds_SOPInstanceUID := "1.2.3" |} 1
             (start negotiated_requestor)
           = (Returned status,
              extend (start negotiated_requestor)
                [EvSCU obj
                   {| ds_SOPClassUID := verification_uid; ds_SOPInstanceUID := "1.2.3" |}
                   1 status])
  | inl err =>
      err = IndexError
      /\ SCU quiet_env
           {| ds_SOPClassUID := verification_uid; ds_SOPInstanceUID := "1.2.3" |} 1
           (start negotiated_requestor)
         = (Raised (Exception "SOP Class 1.2.840.10008.1.1 not supported as SCU"),
            start negotiated_requestor)
  end.
Proof.
  exact (getattr_agrees_with_SCU example_eval quiet_env "VerificationSOPClass"
           {| ds_SOPClassUID := verification_uid; ds_SOPInstanceUID := "1.2.3" |}
           1 (start negotiated_requestor) eq_refl).
Defined.

Lemma prefer_moves_to_front_witness :
  (exists rest,
      prefer ExplicitVRBigEndian
        [ImplicitVRLittleEndian; ExplicitVRLittleEndian; ExplicitVRBigEndian]
      = ExplicitVRBigEndian :: rest
      /\ Permutation
           [ImplicitVRLittleEndian; ExplicitVRLittleEndian; ExplicitVRBigEndian]
           (ExplicitVRBigEndian :: rest)
      /\ (NoDup [ImplicitVRLittleEndian; ExplicitVRLittleEndian; ExplicitVRBigEndian] ->
          rest = filter (fun y => negb (String.eqb y ExplicitVRBigEndian))
                   [ImplicitVRLittleEndian; ExplicitVRLittleEndian;
                    ExplicitVRBigEndian]))
  /\ prefer ExplicitVRBigEndian [ImplicitVRLittleEndian] = [ImplicitVRLittleEndian].
Proof.
  split.
  - apply (proj1 (prefer_moves_to_front ExplicitVRBigEndian
                    [ImplicitVRLittleEndian; ExplicitVRLittleEndian;
                     ExplicitVRBigEndian])).
    right. right. left. reflexivity.
  - apply (proj2 (prefer_moves_to_front ExplicitVRBigEndian [ImplicitVRLittleEndian])).
    intros [E|[]]. discriminate E.
Defined.
